(** * Baggage-processing status service: task registry, subscriber hub, stage runner

    A shallow embedding of [app.py]: the module-level dictionary
    [task_statuses], the [ConnectionManager] with its per-task lists of
    WebSocket connections, the coroutine [simulate_baggage_processing] and
    the HTTP handlers [start_processing] and [get_status].

    Python dictionaries are finite maps, Python lists are lists (order and
    duplicates matter for [list.remove] and for iteration), exceptions are
    values of [Exn] threaded through a state-and-exception monad whose
    state survives a raise, as in Python.

    The coroutines run on one asyncio event loop, which switches between
    them at an [await] only.  The runner is a list of statements; the other
    coroutines may move between any two of them ([run_trace]), and the
    sleeps are placed on a virtual clock ([run_until]).  One call of
    [broadcast_to_task] or of [connect] is taken as a whole: it completes
    without another coroutine or the transport moving in between, so a
    socket is lost before the call or after it. *)

From stdpp Require Import gmap strings list fin_maps numbers.
From Stdlib Require Import QArith Qcanon.

Open Scope Z_scope.

(** ** Python values *)

(** A Python number as it appears in a task record: [0] and [100] are
    [int], [(stage / 4) * 100] is a [float].  The only floats the program
    computes are 0.0, 25.0, 50.0 and 75.0 (and the quotients 0.0, 0.25, 0.5,
    0.75), all exactly representable in binary64, so true division and
    multiplication are exact on them and a canonical rational carries the
    value. *)
Inductive pynum :=
  | PyInt (z : Z)
  | PyFloat (q : Qc).

Definition num_val (n : pynum) : Qc :=
  match n with
  | PyInt z => Q2Qc (inject_Z z)
  | PyFloat q => q
  end.

(** [a / b] on numbers: always a float; division by zero raises and is
    reported as [None]. *)
Definition py_truediv (a b : pynum) : option pynum :=
  if decide (num_val b = Q2Qc 0) then None
  else Some (PyFloat (num_val a / num_val b)%Qc).

(** [a * b]: an int when both are ints, a float otherwise. *)
Definition py_mul (a b : pynum) : pynum :=
  match a, b with
  | PyInt x, PyInt y => PyInt (x * y)
  | _, _ => PyFloat (num_val a * num_val b)%Qc
  end.

(** [l[i]] for a Python list: negative indices count from the end, anything
    outside [-len, len) raises IndexError ([None]). *)
Definition py_getitem {A} (l : list A) (i : Z) : option A :=
  if decide (0 <= i) then l !! Z.to_nat i
  else if decide (- Z.of_nat (length l) <= i) then l !! Z.to_nat (Z.of_nat (length l) + i)
  else None.

(** [range(n)] *)
Definition range (n : nat) : list Z := Z.of_nat <$> seq 0 n.

(** ** Data model *)

Record BaggageDetails := mkBaggage {
  baggage_id : string;
  flight_number : string;
  destination : string;
  weight : string;
  priority : string
}.

(** One value of [task_statuses]: the dictionary built at lines 64-79.  The
    key ["completion_time"] is absent until line 110 adds it. *)
Record TaskRecord := mkTask {
  task_id : string;
  stage : Z;
  stage_name : string;
  progress : pynum;
  status : string;
  start_time : string;
  estimated_completion : Qc;
  baggage_details : BaggageDetails;
  completion_time : option string
}.

(** A WebSocket object; Starlette compares them by identity. *)
Definition WebSocket := nat.

Inductive Exn :=
  | KeyError
  | ValueError
  | IndexError
  | ZeroDivisionError
  | SendFailed                          (* whatever [send_text] raises on a dead channel *)
  | AcceptFailed                        (* whatever [accept] raises on a dead channel *)
  | HTTPException (status_code : Z) (detail : string).

(** The state the program works on.  [closed] and [delivered] belong to the
    transport: the sockets it has lost, on which [accept] and [send_text]
    raise, and the frames that were sent, in order.  A frame is [json.dumps]
    of a record; the record itself stands for its serialisation. *)
Record World := mkWorld {
  task_statuses : gmap string TaskRecord;
  active_connections : gmap string (list WebSocket);
  closed : gset WebSocket;
  delivered : list (WebSocket * TaskRecord)
}.

Definition PROCESSING_STAGES : list string :=
  [ "Baggage Check-in"; "Security Screening"; "Baggage Sorting";
    "Loading onto Aircraft"; "Processing Complete" ]%string.

(** ** State and exception monad *)

Definition M (A : Type) : Type := World → (Exn + A) * World.

Definition ret {A} (a : A) : M A := λ w, (inr a, w).
Definition raise {A} (e : Exn) : M A := λ w, (inl e, w).
Definition bind {A B} (m : M A) (k : A → M B) : M B :=
  λ w, match m w with
       | (inr a, w') => k a w'
       | (inl e, w') => (inl e, w')
       end.
(** [try: m except: h] with a bare [except] *)
Definition try_except {A} (m : M A) (h : M A) : M A :=
  λ w, match m w with
       | (inr a, w') => (inr a, w')
       | (inl _, w') => h w'
       end.
Definition gets {A} (f : World → A) : M A := λ w, (inr (f w), w).
Definition modify (f : World → World) : M unit := λ w, (inr tt, f w).
Definition from_option {A} (e : Exn) (o : option A) : M A :=
  match o with Some a => ret a | None => raise e end.

Notation "x <- m ;; k" := (bind m (λ x, k))
  (at level 100, m at next level, right associativity, only parsing).
Notation "m ;; k" := (bind m (λ _, k))
  (at level 100, right associativity, only parsing).

Definition set_task_statuses (f : gmap string TaskRecord → gmap string TaskRecord)
    (w : World) : World :=
  mkWorld (f (task_statuses w)) (active_connections w) (closed w) (delivered w).
Definition set_active_connections
    (f : gmap string (list WebSocket) → gmap string (list WebSocket))
    (w : World) : World :=
  mkWorld (task_statuses w) (f (active_connections w)) (closed w) (delivered w).
Definition push_delivered (ws : WebSocket) (r : TaskRecord) (w : World) : World :=
  mkWorld (task_statuses w) (active_connections w) (closed w) (delivered w ++ [(ws, r)]).

(** ** ConnectionManager *)

(** [await websocket.send_text(json.dumps(message))] *)
Definition send_text (websocket : WebSocket) (message : TaskRecord) : M unit :=
  λ w, if decide (websocket ∈ closed w) then (inl SendFailed, w)
       else (inr tt, push_delivered websocket message w).

Definition send_personal_message (message : TaskRecord) (websocket : WebSocket) : M unit :=
  send_text websocket message.

(** [await websocket.accept()]: the handshake, which raises on a socket the
    transport has lost. *)
Definition accept (websocket : WebSocket) : M unit :=
  λ w, if decide (websocket ∈ closed w) then (inl AcceptFailed, w) else (inr tt, w).

(** [list.remove(x)]: drops the first element equal to [x]; [None] stands
    for the ValueError raised when there is none. *)
Fixpoint list_remove (x : WebSocket) (l : list WebSocket) : option (list WebSocket) :=
  match l with
  | [] => None
  | y :: l' => if decide (y = x) then Some l' else cons y <$> list_remove x l'
  end.

(** [self.active_connections[task_id].remove(websocket)] *)
Definition remove_connection (task_id : string) (websocket : WebSocket) : M unit :=
  o <- gets (λ w, active_connections w !! task_id) ;;
  conns <- from_option KeyError o ;;
  conns' <- from_option ValueError (list_remove websocket conns) ;;
  modify (set_active_connections <[task_id := conns']>).

Definition connect (websocket : WebSocket) (task_id : string) : M unit :=
  accept websocket ;;
  o <- gets (λ w, active_connections w !! task_id) ;;
  (match o with
   | None => modify (set_active_connections <[task_id := []]>)
   | Some _ => ret tt
   end) ;;
  modify (set_active_connections (alter (λ conns, conns ++ [websocket]) task_id)) ;;
  r <- gets (λ w, task_statuses w !! task_id) ;;
  match r with
  | Some message => send_personal_message message websocket
  | None => ret tt
  end.

Definition disconnect (websocket : WebSocket) (task_id : string) : M unit :=
  o <- gets (λ w, active_connections w !! task_id) ;;
  match o with
  | None => ret tt
  | Some _ =>
      remove_connection task_id websocket ;;
      o' <- gets (λ w, active_connections w !! task_id) ;;
      conns <- from_option KeyError o' ;;
      match conns with
      | [] => modify (set_active_connections (delete task_id))
      | _ => ret tt
      end
  end.

(** The [for connection in self.active_connections[task_id]] loop.  A Python
    list iterator is an index into the live list: each round reads element
    [i] of the list as it is now and stops once [i] is past its end, so a
    [remove] in the body shifts the elements under the iterator.  [fuel]
    bounds the rounds; [broadcast_to_task] passes the length of the list,
    which is never exceeded ([broadcast_loop_fuel]). *)
Fixpoint broadcast_loop (fuel : nat) (message : TaskRecord) (task_id : string)
    (i : nat) : M unit :=
  match fuel with
  | O => ret tt
  | S fuel' =>
      o <- gets (λ w, active_connections w !! task_id) ;;
      conns <- from_option KeyError o ;;
      match conns !! i with
      | None => ret tt
      | Some connection =>
          try_except (send_text connection message)
                     (remove_connection task_id connection) ;;
          broadcast_loop fuel' message task_id (S i)
      end
  end.

Definition broadcast_to_task (message : TaskRecord) (task_id : string) : M unit :=
  o <- gets (λ w, active_connections w !! task_id) ;;
  match o with
  | None => ret tt
  | Some conns => broadcast_loop (length conns) message task_id 0
  end.

(** ** HTTP status endpoint *)

Definition get_status (task_id : string) : M TaskRecord :=
  o <- gets (λ w, task_statuses w !! task_id) ;;
  match o with
  | None => raise (HTTPException 404 "Task not found")
  | Some r => ret r
  end.

(** ** The stage runner, [simulate_baggage_processing] *)

(** What the coroutine obtains from the clock and the random generator. *)
Record Draws := mkDraws {
  now_iso : string;                 (* datetime.now().isoformat(), line 70 *)
  now_plus_120 : Qc;                (* datetime.now().timestamp() + 120, line 71 *)
  drawn_baggage : BaggageDetails;   (* lines 72-78 *)
  stage_time_1 : Z;                 (* random.randint(20, 30) *)
  stage_time_2 : Z;                 (* random.randint(25, 35) *)
  stage_time_3 : Z;                 (* random.randint(20, 30) *)
  stage_time_4 : Z;                 (* random.randint(25, 35) *)
  done_iso : string                 (* datetime.now().isoformat(), line 110 *)
}.

Definition stage_times (d : Draws) : list Z :=
  [stage_time_1 d; stage_time_2 d; stage_time_3 d; stage_time_4 d].

(** [random.randint(a, b)] returns an integer in [a, b], both ends included. *)
Definition valid_draws (d : Draws) : Prop :=
  (20 <= stage_time_1 d <= 30) ∧ (25 <= stage_time_2 d <= 35) ∧
  (20 <= stage_time_3 d <= 30) ∧ (25 <= stage_time_4 d <= 35).

(** Lines 64-79. *)
Definition initial_status (d : Draws) (tid : string) : TaskRecord :=
  {| task_id := tid;
     stage := 0;
     stage_name := default ""%string (py_getitem PROCESSING_STAGES 0);
     progress := PyInt 0;
     status := "Processing";
     start_time := now_iso d;
     estimated_completion := now_plus_120 d;
     baggage_details := drawn_baggage d;
     completion_time := None |}.

Definition with_stage (v : Z) (r : TaskRecord) : TaskRecord :=
  mkTask (task_id r) v (stage_name r) (progress r) (status r) (start_time r)
         (estimated_completion r) (baggage_details r) (completion_time r).
Definition with_stage_name (v : string) (r : TaskRecord) : TaskRecord :=
  mkTask (task_id r) (stage r) v (progress r) (status r) (start_time r)
         (estimated_completion r) (baggage_details r) (completion_time r).
Definition with_progress (v : pynum) (r : TaskRecord) : TaskRecord :=
  mkTask (task_id r) (stage r) (stage_name r) v (status r) (start_time r)
         (estimated_completion r) (baggage_details r) (completion_time r).
Definition with_status (v : string) (r : TaskRecord) : TaskRecord :=
  mkTask (task_id r) (stage r) (stage_name r) (progress r) v (start_time r)
         (estimated_completion r) (baggage_details r) (completion_time r).
Definition with_completion_time (v : string) (r : TaskRecord) : TaskRecord :=
  mkTask (task_id r) (stage r) (stage_name r) (progress r) (status r) (start_time r)
         (estimated_completion r) (baggage_details r) (Some v).

(** [task_statuses[task_id][key] = value]: the record of [task_id] is
    looked up (KeyError when it is gone) and mutated in place. *)
Definition update_task (tid : string) (f : TaskRecord → TaskRecord) : M unit :=
  o <- gets (λ w, task_statuses w !! tid) ;;
  r <- from_option KeyError o ;;
  modify (set_task_statuses <[tid := f r]>).

(** The statements of the coroutine, one constructor per kind of source
    line. *)
Inductive Stmt :=
  | InitStatus                      (* lines 64-79 *)
  | Broadcast                       (* await manager.broadcast_to_task(task_statuses[task_id], task_id) *)
  | SetStage (stage : Z)            (* task_statuses[task_id]["stage"] = stage *)
  | SetStageName (stage : Z)        (* ...["stage_name"] = PROCESSING_STAGES[stage] *)
  | SetProgressStage (stage : Z)    (* ...["progress"] = (stage / 4) * 100 *)
  | SetProgressFull                 (* ...["progress"] = 100 *)
  | SetStatusCompleted              (* ...["status"] = "Completed" *)
  | SetCompletionTime               (* ...["completion_time"] = datetime.now().isoformat() *)
  | SleepStage (stage : Z)          (* await asyncio.sleep(stage_times[stage]) *)
  | SleepRetention                  (* await asyncio.sleep(300) *)
  | Evict.                          (* if task_id in task_statuses: del task_statuses[task_id] *)

(** [(stage / 4) * 100] *)
Definition stage_progress (stage : Z) : option pynum :=
  q ← py_truediv (PyInt stage) (PyInt 4); Some (py_mul q (PyInt 100)).

Definition exec_stmt (d : Draws) (tid : string) (s : Stmt) : M unit :=
  match s with
  | InitStatus =>
      modify (set_task_statuses <[tid := initial_status d tid]>)
  | Broadcast =>
      o <- gets (λ w, task_statuses w !! tid) ;;
      message <- from_option KeyError o ;;
      broadcast_to_task message tid
  | SetStage k => update_task tid (with_stage k)
  | SetStageName k =>
      name <- from_option IndexError (py_getitem PROCESSING_STAGES k) ;;
      update_task tid (with_stage_name name)
  | SetProgressStage k =>
      p <- from_option ZeroDivisionError (stage_progress k) ;;
      update_task tid (with_progress p)
  | SetProgressFull => update_task tid (with_progress (PyInt 100))
  | SetStatusCompleted => update_task tid (with_status "Completed")
  | SetCompletionTime => update_task tid (with_completion_time (done_iso d))
  | SleepStage k =>
      _ <- from_option IndexError (py_getitem (stage_times d) k) ;;
      ret tt
  | SleepRetention => ret tt
  | Evict =>
      o <- gets (λ w, task_statuses w !! tid) ;;
      match o with
      | Some _ => modify (set_task_statuses (delete tid))
      | None => ret tt
      end
  end.

(** The body of [for stage in range(4)], lines 95-103. *)
Definition stage_body (stage : Z) : list Stmt :=
  [SetStage stage; SetStageName stage; SetProgressStage stage; Broadcast; SleepStage stage].

(** Lines 106-118. *)
Definition final_block : list Stmt :=
  [SetStage 4; SetStageName 4; SetProgressFull; SetStatusCompleted; SetCompletionTime;
   Broadcast; SleepRetention; Evict].

Definition simulate_baggage_processing : list Stmt :=
  [InitStatus; Broadcast] ++ (range 4 ≫= stage_body) ++ final_block.

(** The seconds a statement suspends the coroutine for, when it is a sleep. *)
Definition sleep_seconds (d : Draws) (s : Stmt) : option Z :=
  match s with
  | SleepStage k => py_getitem (stage_times d) k
  | SleepRetention => Some 300
  | _ => None
  end.

(** Running a piece of the coroutine to its end, nothing else scheduled in
    between. *)
Fixpoint run (d : Draws) (tid : string) (p : list Stmt) : M unit :=
  match p with
  | [] => ret tt
  | s :: p' => exec_stmt d tid s ;; run d tid p'
  end.

(** Running it on a virtual clock: the coroutine is started at [now], a
    sleep of [n] seconds returns at [now + n], everything between two sleeps
    takes no time.  [run_until d T tid p now] performs what the coroutine has
    done by time [T], the sleeps that end at [T] having returned: a statement
    is run only when the clock has reached the time [now] the coroutine is
    at, so nothing is run before its start. *)
Fixpoint run_until (d : Draws) (T : Z) (tid : string) (p : list Stmt) (now : Z) : M unit :=
  match p with
  | [] => ret tt
  | s :: p' =>
      match sleep_seconds d s with
      | Some n =>
          if decide (now + n <= T) then run_until d T tid p' (now + n) else ret tt
      | None =>
          if decide (now <= T) then exec_stmt d tid s ;; run_until d T tid p' now
          else ret tt
      end
  end.

(** ** Job submission, [start_processing] *)



(** ** The runner among the other coroutines *)

(** The record of [tid] in the registry. *)
Definition entry (tid : string) (w : World) : option TaskRecord :=
  task_statuses w !! tid.

(** What the other coroutines may do between two statements of the runner of
    [tid]: anything that leaves the record of [tid] as it is.  Every other
    operation of the program stays within it ([connect_rely],
    [disconnect_rely], [broadcast_rely], [get_status_rely],
    [exec_stmt_rely]). *)
Definition rely (tid : string) (w w' : World) : Prop :=
  entry tid w' = entry tid w.

(** One step of an execution: a statement of the runner ([Some s]) or a move
    of the others ([None]), with the worlds before and after. *)
Record Step := mkStep {
  mv : option Stmt;
  pre : World;
  post : World
}.

(** [run_trace d tid p w tr p' w']: from [w], with [p] left to run, the
    runner of [tid] and the other coroutines perform the steps [tr], after
    which [p'] is left to run in [w'].  The others may move between any two
    statements, which is more than asyncio allows (it switches only at an
    [await]). *)
Inductive run_trace (d : Draws) (tid : string) :
    list Stmt → World → list Step → list Stmt → World → Prop :=
  | rt_stop p w :
      run_trace d tid p w [] p w
  | rt_own s p w w1 tr p' w' :
      exec_stmt d tid s w = (inr tt, w1) →
      run_trace d tid p w1 tr p' w' →
      run_trace d tid (s :: p) w (mkStep (Some s) w w1 :: tr) p' w'
  | rt_env p w w1 tr p' w' :
      rely tid w w1 →
      run_trace d tid p w1 tr p' w' →
      run_trace d tid p w (mkStep None w w1 :: tr) p' w'.

(** The steps of the runner alone, nothing in between. *)
Fixpoint seq_trace (d : Draws) (tid : string) (p : list Stmt) (w : World) : list Step :=
  match p with
  | [] => []
  | s :: p' =>
      match exec_stmt d tid s w with
      | (inr _, w1) => mkStep (Some s) w w1 :: seq_trace d tid p' w1
      | (inl _, _) => []
      end
  end.

(** [run_clock d T tid p now w w']: with [p] left to run at time [now] in
    [w], the world can be [w'] at time [T], once the runner of [tid] has done
    all that [run_until] does by [T] (it has not started, sleeps or has
    ended), the other coroutines having moved in between as they liked.  What
    can be seen while the runner is at another of its awaits is the matter of
    [run_trace] and [suspended]. *)
Inductive run_clock (d : Draws) (T : Z) (tid : string) :
    list Stmt → Z → World → World → Prop :=
  | rc_end now w :
      run_clock d T tid [] now w w
  | rc_asleep s p now w n :
      sleep_seconds d s = Some n → T < now + n →
      run_clock d T tid (s :: p) now w w
  | rc_slept s p now w n w' :
      sleep_seconds d s = Some n → now + n <= T →
      run_clock d T tid p (now + n) w w' →
      run_clock d T tid (s :: p) now w w'
  | rc_before s p now w :
      sleep_seconds d s = None → T < now →
      run_clock d T tid (s :: p) now w w
  | rc_stmt s p now w w1 w' :
      sleep_seconds d s = None → now <= T →
      exec_stmt d tid s w = (inr tt, w1) →
      run_clock d T tid p now w1 w' →
      run_clock d T tid (s :: p) now w w'
  | rc_env p now w w1 w' :
      rely tid w w1 →
      run_clock d T tid p now w1 w' →
      run_clock d T tid p now w w'.

(** What a trace shows of the record: its value around each step. *)
Definition around (tid : string) (st : Step) : option TaskRecord * option TaskRecord :=
  (entry tid (pre st), entry tid (post st)).

(** The runner's own steps in a trace, with the record before and after. *)
Definition own_steps (tid : string) (tr : list Step)
    : list (Stmt * (option TaskRecord * option TaskRecord)) :=
  omap (λ st, s ← mv st; Some (s, around tid st)) tr.

(** The messages handed to [broadcast_to_task] by the runner, in order. *)
Definition broadcast_of (x : Stmt * (option TaskRecord * option TaskRecord))
    : option TaskRecord :=
  match x with
  | (Broadcast, (o, _)) => o
  | _ => None
  end.
Definition broadcasts (tid : string) (tr : list Step) : list TaskRecord :=
  omap broadcast_of (own_steps tid tr).

(** The writes to ["progress"] by the runner, in order: the stage index the
    record carries and the progress it was given. *)
Definition progress_write_of (x : Stmt * (option TaskRecord * option TaskRecord))
    : option (Z * pynum) :=
  match x with
  | (SetProgressStage _, (_, Some r)) | (SetProgressFull, (_, Some r)) =>
      Some (stage r, progress r)
  | _ => None
  end.
Definition progress_writes (tid : string) (tr : list Step) : list (Z * pynum) :=
  omap progress_write_of (own_steps tid tr).

(** *** The runner seen from its own record

    The effect of a statement on the record of its task, which is all the
    registry holds for it. *)
Definition entry_update (f : TaskRecord → TaskRecord) (o : option TaskRecord)
    : Exn + option TaskRecord :=
  match o with
  | Some r => inr (Some (f r))
  | None => inl KeyError
  end.

Definition entry_stmt (d : Draws) (tid : string) (s : Stmt) (o : option TaskRecord)
    : Exn + option TaskRecord :=
  match s with
  | InitStatus => inr (Some (initial_status d tid))
  | Broadcast => entry_update id o
  | SetStage k => entry_update (with_stage k) o
  | SetStageName k =>
      match py_getitem PROCESSING_STAGES k with
      | Some name => entry_update (with_stage_name name) o
      | None => inl IndexError
      end
  | SetProgressStage k =>
      match stage_progress k with
      | Some p => entry_update (with_progress p) o
      | None => inl ZeroDivisionError
      end
  | SetProgressFull => entry_update (with_progress (PyInt 100)) o
  | SetStatusCompleted => entry_update (with_status "Completed") o
  | SetCompletionTime => entry_update (with_completion_time (done_iso d)) o
  | SleepStage k =>
      match py_getitem (stage_times d) k with
      | Some _ => inr o
      | None => inl IndexError
      end
  | SleepRetention => inr o
  | Evict => inr None
  end.

Fixpoint entry_steps (d : Draws) (tid : string) (p : list Stmt) (o : option TaskRecord)
    : list (Stmt * (option TaskRecord * option TaskRecord)) :=
  match p with
  | [] => []
  | s :: p' =>
      match entry_stmt d tid s o with
      | inr o' => (s, (o, o')) :: entry_steps d tid p' o'
      | inl _ => []
      end
  end.

Fixpoint entry_run (d : Draws) (tid : string) (p : list Stmt) (o : option TaskRecord)
    : Exn + option TaskRecord :=
  match p with
  | [] => inr o
  | s :: p' =>
      match entry_stmt d tid s o with
      | inr o' => entry_run d tid p' o'
      | inl e => inl e
      end
  end.

Fixpoint entry_until (d : Draws) (T : Z) (tid : string) (p : list Stmt) (now : Z)
    (o : option TaskRecord) : Exn + option TaskRecord :=
  match p with
  | [] => inr o
  | s :: p' =>
      match sleep_seconds d s with
      | Some n =>
          if decide (now + n <= T) then entry_until d T tid p' (now + n) o else inr o
      | None =>
          if decide (now <= T) then
            match entry_stmt d tid s o with
            | inr o' => entry_until d T tid p' now o'
            | inl e => inl e
            end
          else inr o
      end
  end.

(** ** Properties the claims are stated with *)

(** The record at its completion, lines 106-110. *)
Definition completed_status (d : Draws) (tid : string) : TaskRecord :=
  {| task_id := tid;
     stage := 4;
     stage_name := "Processing Complete";
     progress := PyInt 100;
     status := "Completed";
     start_time := now_iso d;
     estimated_completion := now_plus_120 d;
     baggage_details := drawn_baggage d;
     completion_time := Some (done_iso d) |}.

(** The moment the runner started at [t0] completes its task. *)
Definition done_at (d : Draws) (t0 : Z) : Z :=
  t0 + stage_time_1 d + stage_time_2 d + stage_time_3 d + stage_time_4 d.

(** Stage index and progress do not decrease, a completed record stays
    completed. *)
Definition entry_le (oo : option TaskRecord * option TaskRecord) : Prop :=
  match oo with
  | (Some r, Some r') =>
      stage r <= stage r' ∧ (num_val (progress r) <= num_val (progress r'))%Qc ∧
      (status r = "Completed"%string → status r' = "Completed"%string)
  | _ => True
  end.

(** The step takes the record from Processing to Completed. *)
Definition completes (oo : option TaskRecord * option TaskRecord) : bool :=
  match oo with
  | (Some r, Some r') =>
      bool_decide (status r = "Processing"%string) && bool_decide (status r' = "Completed"%string)
  | _ => false
  end.

(** The fields fixed at creation are the same on both sides. *)
Definition same_frame (oo : option TaskRecord * option TaskRecord) : Prop :=
  match oo with
  | (Some r, Some r') =>
      task_id r' = task_id r ∧ start_time r' = start_time r ∧
      estimated_completion r' = estimated_completion r ∧
      baggage_details r' = baggage_details r
  | _ => True
  end.

(** Every list of the hub has a subscriber in it. *)
Definition hub_inv (w : World) : Prop :=
  ∀ tid conns, active_connections w !! tid = Some conns → conns ≠ [].

(** A list of stage indices that grows strictly. *)
Definition strictly_increasing (l : list Z) : Prop :=
  ∀ i j x y, (i < j)%nat → l !! i = Some x → l !! j = Some y → x < y.

(** A list of stage indices that never falls. *)
Definition non_decreasing (l : list Z) : Prop :=
  ∀ i j x y, (i < j)%nat → l !! i = Some x → l !! j = Some y → x <= y.

(** The world once [connect] has put [ws] on the list of [tid] (lines
    32-34). *)
Definition registered (ws : WebSocket) (tid : string) (w : World) : World :=
  set_active_connections
    <[tid := default [] (active_connections w !! tid) ++ [ws]]> w.

(** The world once [disconnect] has taken the first [ws] off the list
    [conns] of [tid], which leaves [conns'] (lines 42-44). *)
Definition unregistered (tid : string) (conns' : list WebSocket) (w : World) : World :=
  set_active_connections
    (match conns' with [] => delete tid | _ => <[tid := conns']> end) w.

(** The record while stage [k] is being processed, lines 95-97 applied to
    the record of lines 64-79. *)
Definition stage_status (d : Draws) (tid : string) (k : Z) : TaskRecord :=
  {| task_id := tid;
     stage := k;
     stage_name := default ""%string (py_getitem PROCESSING_STAGES k);
     progress := default (PyInt 0) (stage_progress k);
     status := "Processing";
     start_time := now_iso d;
     estimated_completion := now_plus_120 d;
     baggage_details := drawn_baggage d;
     completion_time := None |}.

(** The float [k / 4 * 100]. *)
Definition quarter_percent (k : Z) : pynum :=
  PyFloat (Q2Qc (inject_Z k) / Q2Qc (inject_Z 4) * Q2Qc (inject_Z 100))%Qc.

(** The writes to ["progress"] the claims expect of a whole run: stage [k]
    gets the float [k / 4 * 100] for [k] from 0 to 3, the terminal stage the
    int 100. *)
Definition expected_progress_writes : list (Z * pynum) :=
  [(0, quarter_percent 0); (1, quarter_percent 1); (2, quarter_percent 2);
   (3, quarter_percent 3); (4, PyInt 100)].

(** The transport closes a socket: from now on [send_text] raises on it. *)
Definition close_socket (ws : WebSocket) (w : World) : World :=
  mkWorld (task_statuses w) (active_connections w) ({[ws]} ∪ closed w) (delivered w).

(** ** Sample inputs *)

Definition sample_draws : Draws :=
  {| now_iso := "2024-05-01T10:00:00";
     now_plus_120 := Q2Qc (inject_Z 1714557720);
     drawn_baggage := mkBaggage "BAG-12345" "FL-123" "Tokyo" "12.5 kg" "Normal";
     stage_time_1 := 20;
     stage_time_2 := 25;
     stage_time_3 := 20;
     stage_time_4 := 25;
     done_iso := "2024-05-01T10:01:30" |}.

(** A world with an empty registry, the subscribers [conns] attached to task
    ["T1"] and the sockets [dead] closed. *)
Definition sample_world (conns dead : list WebSocket) : World :=
  mkWorld ∅ {["T1"%string := conns]} (list_to_set dead) [].

(** A world with nothing in it. *)
Definition empty_world : World := mkWorld ∅ ∅ ∅ [].

(** ** Descriptions the further properties are stated with *)

(** What a broadcast makes of a list without repetitions, read off the loop:
    an open socket is sent the message and stays; a closed one is removed,
    and the subscriber that followed it is passed over, staying on the list
    without being sent anything.  The result is the list left in the hub and
    the sockets reached, in order. *)
Fixpoint broadcast_walk (dead : WebSocket → bool) (conns : list WebSocket)
    : list WebSocket * list WebSocket :=
  match conns with
  | [] => ([], [])
  | c :: rest =>
      if dead c then
        match rest with
        | [] => ([], [])
        | c' :: rest' =>
            let (kept, reached) := broadcast_walk dead rest' in (c' :: kept, reached)
        end
      else
        let (kept, reached) := broadcast_walk dead rest in (c :: kept, c :: reached)
  end.

(** The frames [message] makes for the sockets [conns]. *)
Definition frames_to (conns : list WebSocket) (message : TaskRecord)
    : list (WebSocket * TaskRecord) :=
  (λ c, (c, message)) <$> conns.

(** The records the runner hands to the broadcast in a whole run: the
    initial status (line 82), the four stages (line 100) and the completed
    status (line 113). *)
Definition runner_frames (d : Draws) (tid : string) : list TaskRecord :=
  [initial_status d tid; stage_status d tid 0; stage_status d tid 1;
   stage_status d tid 2; stage_status d tid 3; completed_status d tid].

(** The time at which the runner started at [t0] enters stage [k]. *)
Definition stage_begin (d : Draws) (t0 : Z) (k : nat) : Z :=
  t0 + foldr Z.add 0 (take k (stage_times d)).

(** A record as the runner shows it at an [await]: its stage index is one of
    the five, its stage name is the one of that index, it is Completed with a
    completion time on the terminal stage and Processing without one before,
    and its progress is within 0 and 100. *)
Definition consistent_record (tid : string) (r : TaskRecord) : Prop :=
  task_id r = tid ∧
  py_getitem PROCESSING_STAGES (stage r) = Some (stage_name r) ∧
  0 <= stage r <= 4 ∧
  (Q2Qc (inject_Z 0) <= num_val (progress r) <= Q2Qc (inject_Z 100))%Qc ∧
  (stage r = 4 → status r = "Completed"%string ∧ is_Some (completion_time r)) ∧
  (stage r < 4 → status r = "Processing"%string ∧ completion_time r = None).

(** The hub has the list [conns] for the task [tid], and none of its sockets
    is closed. *)
Definition all_open (tid : string) (conns : list WebSocket) (w : World) : Prop :=
  active_connections w !! tid = Some conns ∧ ∀ c, c ∈ conns → c ∉ closed w.

(** The records socket [c] has been sent, in order, among the frames
    [frames]. *)
Definition received (c : WebSocket) (frames : list (WebSocket * TaskRecord))
    : list TaskRecord :=
  omap (λ x, if decide (x.1 = c) then Some x.2 else None) frames.

(** The coroutine cut during the sleep of stage [k]: what it has run when it
    sleeps there, and what it runs after. *)
Definition run_to_stage (k : nat) : list Stmt :=
  [InitStatus; Broadcast] ++ ((Z.of_nat <$> seq 0 (S k)) ≫= stage_body).
Definition run_from_stage (k : nat) : list Stmt :=
  ((Z.of_nat <$> seq (S k) (3 - k)) ≫= stage_body) ++ final_block.

(** ** The awaits of the runner *)






(** * Proofs *)

(** ** The subscriber hub *)

Section Hub.

Implicit Types (ws : WebSocket) (tid : string) (w : World) (conns : list WebSocket).

Lemma list_remove_elem ws conns :
  ws ∈ conns → is_Some (list_remove ws conns).
Proof.
  induction conns as [|y l IH]; simpl.
  - intros H. by apply not_elem_of_nil in H.
  - intros H. case_decide; [eauto|].
    apply elem_of_cons in H as [->|H]; [done|].
    destruct (IH H) as [l' ->]. simpl. eauto.
Qed.

Lemma list_remove_absent ws conns :
  ws ∉ conns → list_remove ws conns = None.
Proof.
  induction conns as [|y l IH]; simpl; [done|].
  intros H. apply not_elem_of_cons in H as [Hne H].
  case_decide; [congruence|]. by rewrite IH.
Qed.

Lemma list_remove_length ws conns conns' :
  list_remove ws conns = Some conns' → length conns = S (length conns').
Proof.
  revert conns'. induction conns as [|y l IH]; simpl; intros l' H; [done|].
  case_decide; [by simplify_eq|].
  destruct (list_remove ws l) as [l0|] eqn:E; simplify_eq/=.
  by rewrite (IH l0).
Qed.

(** One round of the loop body on a list that holds [connection]: it does
    not raise, the list stays under its key and does not grow, and the
    registry is not touched. *)
Lemma broadcast_round message tid connection w conns :
  active_connections w !! tid = Some conns →
  connection ∈ conns →
  ∃ w1 conns1,
    try_except (send_text connection message)
               (remove_connection tid connection) w = (inr tt, w1) ∧
    active_connections w1 !! tid = Some conns1 ∧
    (length conns1 ≤ length conns)%nat ∧
    task_statuses w1 = task_statuses w ∧ closed w1 = closed w.
Proof.
  intros Hl Hin. unfold try_except, send_text.
  case_decide.
  - destruct (list_remove_elem _ _ Hin) as [l' Hl'].
    unfold remove_connection, bind, gets, from_option, ret, modify.
    rewrite Hl, Hl'. eexists _, l'. split; [done|]. simpl.
    rewrite lookup_insert_eq. apply list_remove_length in Hl'.
    split_and!; [done|lia|done|done].
  - eexists _, conns. split; [done|]. simpl. by split_and!.
Qed.

(** One unfolding of the loop on a world whose hub has the key. *)
Lemma broadcast_loop_S fuel message tid i w conns :
  active_connections w !! tid = Some conns →
  broadcast_loop (S fuel) message tid i w =
  match conns !! i with
  | None => (inr tt, w)
  | Some connection =>
      match try_except (send_text connection message)
                       (remove_connection tid connection) w with
      | (inr _, w1) => broadcast_loop fuel message tid (S i) w1
      | (inl e, w1) => (inl e, w1)
      end
  end.
Proof.
  intros Hl. cbn [broadcast_loop]. unfold bind at 1 2, gets, from_option.
  rewrite Hl. unfold ret at 1. by destruct (conns !! i).
Qed.

Lemma broadcast_loop_ok fuel message tid i w :
  is_Some (active_connections w !! tid) →
  ∃ w', broadcast_loop fuel message tid i w = (inr tt, w') ∧
        task_statuses w' = task_statuses w ∧ closed w' = closed w ∧
        is_Some (active_connections w' !! tid).
Proof.
  revert i w. induction fuel as [|fuel IH]; intros i w [conns Hl].
  - exists w. simpl. unfold ret. rewrite Hl. eauto.
  - rewrite (broadcast_loop_S _ _ _ _ _ conns Hl).
    destruct (conns !! i) as [c|] eqn:Hi.
    + assert (c ∈ conns) as Hin by (apply list_elem_of_lookup; eauto).
      destruct (broadcast_round message tid c w conns Hl Hin)
        as (w1 & conns1 & Hr & Hl1 & _ & Hts & Hcl).
      rewrite Hr.
      destruct (IH (S i) w1) as (w' & Hw' & Hts' & Hcl' & Hs); [eauto|].
      exists w'. rewrite Hw'. split_and!; [done|congruence|congruence|done].
    + exists w. rewrite Hl. eauto.
Qed.

(** A broadcast never raises and leaves the registry alone. *)
Lemma broadcast_to_task_ok message tid w :
  ∃ w', broadcast_to_task message tid w = (inr tt, w') ∧
        task_statuses w' = task_statuses w ∧ closed w' = closed w.
Proof.
  unfold broadcast_to_task, bind, gets.
  destruct (active_connections w !! tid) as [conns|] eqn:Hl.
  - destruct (broadcast_loop_ok (length conns) message tid 0 w) as (w' & ? & ? & ? & _);
      [eauto|]. eauto.
  - exists w. eauto.
Qed.

(** Past the length of the list, more fuel changes nothing: the iterator
    is exhausted before the fuel is. *)
Lemma broadcast_loop_more fuel message tid i w conns :
  active_connections w !! tid = Some conns →
  (length conns - i ≤ fuel)%nat →
  broadcast_loop (S fuel) message tid i w = broadcast_loop fuel message tid i w.
Proof.
  revert i w conns. induction fuel as [|fuel IH]; intros i w conns Hl Hlen.
  - rewrite (broadcast_loop_S _ _ _ _ _ conns Hl).
    by rewrite (lookup_ge_None_2 conns i) by lia.
  - rewrite !(broadcast_loop_S _ _ _ _ _ conns Hl).
    destruct (conns !! i) as [c|] eqn:Hi; [|done].
    assert (c ∈ conns) as Hin by (apply list_elem_of_lookup; eauto).
    destruct (broadcast_round message tid c w conns Hl Hin)
      as (w1 & conns1 & Hr & Hl1 & Hlen1 & _).
    rewrite Hr. apply (IH (S i) w1 conns1 Hl1).
    apply lookup_lt_Some in Hi. lia.
Qed.

Lemma broadcast_loop_fuel extra message tid w conns :
  active_connections w !! tid = Some conns →
  broadcast_loop (length conns + extra) message tid 0 w
  = broadcast_loop (length conns) message tid 0 w.
Proof.
  intros Hl. induction extra as [|extra IH].
  - by rewrite Nat.add_0_r.
  - rewrite Nat.add_succ_r, <- IH.
    apply (broadcast_loop_more _ _ _ _ _ conns Hl). lia.
Qed.

End Hub.

Section HubOperations.

Implicit Types (ws : WebSocket) (tid : string) (w : World) (conns : list WebSocket).

Lemma connect_spec ws tid w :
  connect ws tid w =
  if decide (ws ∈ closed w) then (inl AcceptFailed, w)
  else match entry tid w with
       | Some message => send_personal_message message ws (registered ws tid w)
       | None => (inr tt, registered ws tid w)
       end.
Proof.
  unfold connect, accept, bind at 1. case_decide; [done|].
  unfold registered, entry, bind, gets, modify, ret, set_active_connections.
  destruct (active_connections w !! tid) as [conns|] eqn:Hl; simpl.
  - assert (alter (λ conns0, conns0 ++ [ws]) tid (active_connections w)
            = <[tid := conns ++ [ws]]> (active_connections w)) as ->.
    { apply map_eq. intros j. rewrite lookup_alter, lookup_insert.
      case_decide; [subst; by rewrite Hl|done]. }
    by destruct (task_statuses w !! tid).
  - rewrite alter_insert_eq. by destruct (task_statuses w !! tid).
Qed.

Lemma disconnect_absent ws tid w :
  active_connections w !! tid = None → disconnect ws tid w = (inr tt, w).
Proof. intros Hl. unfold disconnect, bind, gets, ret. by rewrite Hl. Qed.

Lemma disconnect_missing ws tid w conns :
  active_connections w !! tid = Some conns → ws ∉ conns →
  disconnect ws tid w = (inl ValueError, w).
Proof.
  intros Hl Hin. apply list_remove_absent in Hin.
  unfold disconnect, remove_connection, bind, gets, from_option, raise, ret.
  by repeat (rewrite ?Hl, ?Hin; cbn beta iota).
Qed.

Lemma disconnect_present ws tid w conns conns' :
  active_connections w !! tid = Some conns → list_remove ws conns = Some conns' →
  disconnect ws tid w = (inr tt, unregistered tid conns' w).
Proof.
  intros Hl Hr.
  unfold disconnect, remove_connection, unregistered, bind, gets, from_option, modify, ret.
  repeat (rewrite ?Hl, ?Hr; cbn beta iota). simpl. rewrite lookup_insert_eq.
  destruct conns'; [|done].
  unfold set_active_connections. simpl. by rewrite delete_insert_eq.
Qed.

(** The hub operations never touch the registry. *)
Lemma send_text_registry ws message w :
  task_statuses (send_text ws message w).2 = task_statuses w.
Proof. unfold send_text. by case_decide. Qed.

Lemma connect_registry ws tid w :
  task_statuses (connect ws tid w).2 = task_statuses w.
Proof.
  rewrite connect_spec. case_decide; [done|]. destruct (entry tid w); [|done].
  unfold send_personal_message. by rewrite send_text_registry.
Qed.

Lemma disconnect_registry ws tid w :
  task_statuses (disconnect ws tid w).2 = task_statuses w.
Proof.
  destruct (active_connections w !! tid) as [conns|] eqn:Hl.
  - destruct (list_remove ws conns) as [conns'|] eqn:Hr.
    + by rewrite (disconnect_present _ _ _ _ _ Hl Hr).
    + unfold disconnect, remove_connection, bind, gets, from_option, raise, ret.
      by repeat (rewrite ?Hl, ?Hr; cbn beta iota).
  - by rewrite disconnect_absent.
Qed.

Lemma broadcast_registry message tid w :
  task_statuses (broadcast_to_task message tid w).2 = task_statuses w.
Proof. by destruct (broadcast_to_task_ok message tid w) as (w' & -> & ? & _). Qed.

Lemma get_status_state tid w : (get_status tid w).2 = w.
Proof. unfold get_status, bind, gets. by destruct (task_statuses w !! tid). Qed.

Lemma connect_rely ws tid tid' w : rely tid' w (connect ws tid w).2.
Proof. unfold rely, entry. by rewrite connect_registry. Qed.

Lemma disconnect_rely ws tid tid' w : rely tid' w (disconnect ws tid w).2.
Proof. unfold rely, entry. by rewrite disconnect_registry. Qed.

Lemma broadcast_rely message tid tid' w : rely tid' w (broadcast_to_task message tid w).2.
Proof. unfold rely, entry. by rewrite broadcast_registry. Qed.

Lemma get_status_rely tid tid' w : rely tid' w (get_status tid w).2.
Proof. unfold rely. by rewrite get_status_state. Qed.

(** Attach and detach keep every list of the hub non-empty. *)
Lemma connect_hub_inv ws tid w :
  hub_inv w → hub_inv (connect ws tid w).2.
Proof.
  intros Hinv. rewrite connect_spec. case_decide; [done|].
  assert (hub_inv (registered ws tid w)) as Hreg.
  { intros j l. unfold registered. simpl. rewrite lookup_insert.
    case_decide; [|by apply Hinv].
    intros [= <-]. by destruct (default [] _). }
  destruct (entry tid w); [|done].
  unfold send_personal_message, send_text. by case_decide.
Qed.

Lemma disconnect_hub_inv ws tid w :
  hub_inv w → hub_inv (disconnect ws tid w).2.
Proof.
  intros Hinv.
  destruct (active_connections w !! tid) as [conns|] eqn:Hl.
  - destruct (list_remove ws conns) as [conns'|] eqn:Hr.
    + rewrite (disconnect_present _ _ _ _ _ Hl Hr). unfold unregistered. simpl.
      intros j l. destruct conns'; simpl.
      * rewrite lookup_delete. case_decide; [done|by apply Hinv].
      * rewrite lookup_insert. case_decide; [by intros [= <-]|by apply Hinv].
    + unfold disconnect, remove_connection, bind, gets, from_option, raise, ret.
      by repeat (rewrite ?Hl, ?Hr; cbn beta iota).
  - by rewrite disconnect_absent.
Qed.

(** Detaching takes nothing but the first occurrence of [ws] off the list
    of [tid]; the lists of the other ids are as they were, whatever the
    outcome. *)
Lemma disconnect_others ws tid tid' w :
  tid' ≠ tid →
  active_connections (disconnect ws tid w).2 !! tid' = active_connections w !! tid'.
Proof.
  intros Hne.
  destruct (active_connections w !! tid) as [conns|] eqn:Hl.
  - destruct (list_remove ws conns) as [conns'|] eqn:Hr.
    + rewrite (disconnect_present _ _ _ _ _ Hl Hr). unfold unregistered. simpl.
      destruct conns'; simpl; [by rewrite lookup_delete_ne|by rewrite lookup_insert_ne].
    + unfold disconnect, remove_connection, bind, gets, from_option, raise, ret.
      by repeat (rewrite ?Hl, ?Hr; cbn beta iota).
  - by rewrite disconnect_absent.
Qed.

End HubOperations.

(** ** The stage runner *)

Section Runner.

Variable d : Draws.
Implicit Types (tid : string) (w : World) (s : Stmt) (p : list Stmt).

Lemma update_task_spec tid f w :
  update_task tid f w =
  match entry tid w with
  | Some r => (inr tt, set_task_statuses <[tid := f r]> w)
  | None => (inl KeyError, w)
  end.
Proof.
  unfold update_task, entry, bind, gets, from_option, ret, raise, modify.
  by destruct (task_statuses w !! tid).
Qed.

Lemma update_task_entry tid f w :
  match entry_update f (entry tid w) with
  | inr o' => ∃ w', update_task tid f w = (inr tt, w') ∧ entry tid w' = o'
  | inl e => update_task tid f w = (inl e, w)
  end.
Proof.
  rewrite update_task_spec. destruct (entry tid w) as [r|]; simpl; [|done].
  eexists. split; [done|]. unfold entry. simpl. by rewrite lookup_insert_eq.
Qed.

(** A statement does to the record of its task what [entry_stmt] says, and
    raises exactly when [entry_stmt] does, leaving the world as it was. *)
Lemma exec_stmt_entry tid s w :
  match entry_stmt d tid s (entry tid w) with
  | inr o' => ∃ w', exec_stmt d tid s w = (inr tt, w') ∧ entry tid w' = o'
  | inl e => exec_stmt d tid s w = (inl e, w)
  end.
Proof.
  destruct s as [| |k|k|k| | | |k| |]; cbn [entry_stmt exec_stmt];
    try apply update_task_entry.
  - eexists. split; [done|]. unfold entry. simpl. by rewrite lookup_insert_eq.
  - unfold bind, gets, from_option, entry.
    destruct (task_statuses w !! tid) as [r|] eqn:Hr; simpl; [|done].
    destruct (broadcast_to_task_ok r tid w) as (w' & Hw' & Hts & _).
    exists w'. unfold ret. split; [done|]. unfold entry. by rewrite Hts.
  - unfold bind at 1 2.
    destruct (py_getitem PROCESSING_STAGES k) as [name|]; simpl; [|done].
    apply update_task_entry.
  - unfold bind.
    destruct (py_getitem (stage_times d) k); simpl; [|done]. eauto.
  - eauto.
  - unfold bind, gets, entry.
    destruct (task_statuses w !! tid) as [r|] eqn:Hr; simpl.
    + eexists. split; [done|]. simpl. by rewrite lookup_delete_eq.
    + eauto.
Qed.

Lemma exec_stmt_ok tid s w w' :
  exec_stmt d tid s w = (inr tt, w') →
  entry_stmt d tid s (entry tid w) = inr (entry tid w').
Proof.
  intros He. pose proof (exec_stmt_entry tid s w) as H.
  destruct (entry_stmt d tid s (entry tid w)) as [e|o'].
  - congruence.
  - destruct H as (w1 & H1 & <-). congruence.
Qed.

(** The runner of another task stays within [rely]. *)
Lemma exec_stmt_rely tid tid' s w :
  tid' ≠ tid → rely tid w (exec_stmt d tid' s w).2.
Proof.
  intros Hne. unfold rely, entry.
  assert (∀ f, task_statuses (update_task tid' f w).2 !! tid = task_statuses w !! tid) as Hup.
  { intros f. rewrite update_task_spec. destruct (entry tid' w); simpl; [|done].
    by rewrite lookup_insert_ne. }
  destruct s as [| |k|k|k| | | |k| |]; cbn [exec_stmt]; try apply Hup.
  - simpl. by rewrite lookup_insert_ne.
  - unfold bind, gets, from_option.
    destruct (task_statuses w !! tid') as [r|]; simpl; [|done].
    unfold ret. by rewrite broadcast_registry.
  - unfold bind, from_option.
    destruct (py_getitem PROCESSING_STAGES k); simpl; [apply Hup|done].
  - unfold bind, from_option. by destruct (py_getitem (stage_times d) k).
  - done.
  - unfold bind, gets. destruct (task_statuses w !! tid'); simpl; [|done].
    by rewrite lookup_delete_ne.
Qed.

(** *** Traces *)

(** The runner's own steps in a trace are the first steps of the runner
    seen from its record, whatever the others did in between. *)
Lemma run_trace_own tid p w tr p' w' :
  run_trace d tid p w tr p' w' →
  own_steps tid tr ++ entry_steps d tid p' (entry tid w')
  = entry_steps d tid p (entry tid w).
Proof.
  induction 1 as [p w|s p w w1 tr p' w' He _ IH|p w w1 tr p' w' Hr _ IH].
  - done.
  - simpl. rewrite (exec_stmt_ok _ _ _ _ He). unfold around. simpl.
    by rewrite <- IH.
  - unfold rely in Hr. by rewrite <- Hr, <- IH.
Qed.

Lemma run_trace_prefix tid p w tr p' w' :
  run_trace d tid p w tr p' w' →
  own_steps tid tr `prefix_of` entry_steps d tid p (entry tid w).
Proof. intros H. rewrite <- (run_trace_own _ _ _ _ _ _ H). by eexists. Qed.

(** The other steps leave the record as it is. *)
Lemma run_trace_env tid p w tr p' w' :
  run_trace d tid p w tr p' w' →
  Forall (λ st, mv st = None → entry tid (post st) = entry tid (pre st)) tr.
Proof.
  induction 1; constructor; try done.
Qed.

(** A property of the record around a step holds all along a trace when
    it holds across every statement of the runner seen from its record and
    across the steps that change nothing. *)
Lemma run_trace_Forall (P : option TaskRecord * option TaskRecord → Prop)
    tid p w tr p' w' :
  (∀ o, P (o, o)) →
  Forall (λ x, P x.2) (entry_steps d tid p (entry tid w)) →
  run_trace d tid p w tr p' w' →
  Forall (λ st, P (around tid st)) tr.
Proof.
  intros Hrefl Hall Hrun.
  pose proof (run_trace_prefix _ _ _ _ _ _ Hrun) as [k Hk].
  pose proof (run_trace_env _ _ _ _ _ _ Hrun) as Henv.
  rewrite Hk in Hall. apply Forall_app in Hall as [Hown _].
  clear Hk Hrun. induction tr as [|st tr IH]; [constructor|].
  apply Forall_cons_1 in Henv as [Hst Henv].
  destruct st as [[s|] w1 w2]; unfold own_steps in Hown; simpl in *.
  - apply Forall_cons_1 in Hown as [H1 H2].
    constructor; [done|by apply IH].
  - constructor; [|by apply IH]. unfold around. simpl. rewrite Hst by done. apply Hrefl.
Qed.

(** The steps that change nothing are not counted by a test that is false
    on unchanged records. *)
Lemma run_trace_filter (f : option TaskRecord * option TaskRecord → bool)
    tid p w tr p' w' :
  (∀ o, f (o, o) = false) →
  run_trace d tid p w tr p' w' →
  (length (filter (λ st, f (around tid st) = true) tr)
   ≤ length (filter (λ x, f x.2 = true) (entry_steps d tid p (entry tid w))))%nat.
Proof.
  intros Hrefl Hrun.
  pose proof (run_trace_prefix _ _ _ _ _ _ Hrun) as [k Hk].
  pose proof (run_trace_env _ _ _ _ _ _ Hrun) as Henv.
  rewrite Hk, list.filter_app, length_app.
  assert (length (filter (λ st, f (around tid st) = true) tr)
          = length (filter (λ x, f x.2 = true) (own_steps tid tr))) as ->; [|lia].
  clear Hk Hrun. induction tr as [|st tr IH]; [done|].
  apply Forall_cons_1 in Henv as [Hst Henv].
  destruct st as [[s|] w1 w2]; unfold own_steps in *; simpl in *.
  - rewrite !filter_cons. simpl.
    destruct (decide (f (around tid (mkStep (Some s) w1 w2)) = true)); simpl;
      by rewrite IH.
  - rewrite filter_cons, decide_False; [by apply IH|].
    unfold around. simpl. rewrite Hst by done. by rewrite Hrefl.
Qed.

(** The runner alone gives a trace. *)
Lemma seq_trace_run tid p w w' :
  run d tid p w = (inr tt, w') →
  run_trace d tid p w (seq_trace d tid p w) [] w'.
Proof.
  revert w. induction p as [|s p IH]; intros w; simpl.
  - intros [= <-]. constructor.
  - unfold bind. destruct (exec_stmt d tid s w) as [[e|[]] w1] eqn:He; [done|].
    intros Hr. apply rt_own; [done|]. by apply IH.
Qed.

(** Running a program does to the record what [entry_run] says. *)
Lemma run_entry tid p w o' :
  entry_run d tid p (entry tid w) = inr o' →
  ∃ w', run d tid p w = (inr tt, w') ∧ entry tid w' = o'.
Proof.
  revert w. induction p as [|s p IH]; intros w; simpl.
  - intros [= <-]. by exists w.
  - pose proof (exec_stmt_entry tid s w) as Hs.
    destruct (entry_stmt d tid s (entry tid w)) as [e|o1]; [done|].
    destruct Hs as (w1 & He & <-). intros Hr.
    destruct (IH w1 Hr) as (w' & Hw' & Ho). exists w'.
    unfold bind. rewrite He. done.
Qed.

Lemma run_until_entry T tid p now w o' :
  entry_until d T tid p now (entry tid w) = inr o' →
  ∃ w', run_until d T tid p now w = (inr tt, w') ∧ entry tid w' = o'.
Proof.
  revert w now. induction p as [|s p IH]; intros w now; simpl.
  - intros [= <-]. by exists w.
  - destruct (sleep_seconds d s) as [n|].
    + case_decide; [apply IH|]. intros [= <-]. by exists w.
    + case_decide; [|intros [= <-]; by exists w].
      pose proof (exec_stmt_entry tid s w) as Hs.
      destruct (entry_stmt d tid s (entry tid w)) as [e|o1]; [done|].
      destruct Hs as (w1 & He & <-). intros Hr.
      destruct (IH w1 now Hr) as (w' & Hw' & Ho). exists w'.
      unfold bind. rewrite He. done.
Qed.

End Runner.

(** ** The run of [simulate_baggage_processing] *)

(** Replace the steps of a program seen from its record by their value. *)
Ltac eval_steps :=
  match goal with
  | |- context [entry_steps ?d ?t ?p ?o] =>
      let l := eval vm_compute in (entry_steps d t p o) in
      change (entry_steps d t p o) with l
  end.

Section Simulate.

Variable d : Draws.
Variable tid : string.

Local Abbreviation steps o := (entry_steps d tid simulate_baggage_processing o).

Lemma entry_le_refl o : entry_le (o, o).
Proof. destruct o as [r|]; simpl; [|done]. split_and!; [lia|apply Qcle_refl|done]. Qed.

Lemma same_frame_refl o : same_frame (o, o).
Proof. by destruct o. Qed.

Lemma completes_refl o : completes (o, o) = false.
Proof.
  destruct o as [r|]; simpl; [|done].
  destruct (decide (status r = "Processing"%string)) as [E|E].
  - rewrite E. done.
  - by rewrite (bool_decide_eq_false_2 _ E).
Qed.

Lemma simulate_steps_le : Forall (λ x, entry_le x.2) (steps None).
Proof.
  eval_steps. repeat (constructor; [simpl; try done|]); [..|constructor].
  all: split_and!; done.
Qed.

Lemma simulate_steps_frame : Forall (λ x, same_frame x.2) (steps None).
Proof. eval_steps. repeat (constructor; [simpl; try done|]). constructor. Qed.

Lemma simulate_steps_completes :
  length (filter (λ x, completes x.2 = true) (steps None)) = 1%nat.
Proof. eval_steps. reflexivity. Qed.

Lemma simulate_broadcast_stages o :
  stage <$> omap broadcast_of (steps o) = [0; 0; 1; 2; 3; 4].
Proof. reflexivity. Qed.

Lemma simulate_progress_writes o :
  omap progress_write_of (steps o) = expected_progress_writes.
Proof. reflexivity. Qed.

Lemma simulate_entry_run o :
  entry_run d tid simulate_baggage_processing o = inr None.
Proof. reflexivity. Qed.

(** The coroutine runs to its end from any world: none of its statements
    raises. *)
Lemma simulate_total w :
  ∃ w', run d tid simulate_baggage_processing w = (inr tt, w') ∧ entry tid w' = None.
Proof. apply run_entry, simulate_entry_run. Qed.

End Simulate.

(** ** The runner on the virtual clock *)

Section Clock.

Variable d : Draws.
Variable tid : string.
Implicit Types (T now : Z) (o : option TaskRecord) (p : list Stmt).

Lemma entry_until_slept T s p now o n :
  sleep_seconds d s = Some n → now + n <= T →
  entry_until d T tid (s :: p) now o = entry_until d T tid p (now + n) o.
Proof. intros Hs Hle. simpl. rewrite Hs. by rewrite decide_True. Qed.

Lemma entry_until_asleep T s p now o n :
  sleep_seconds d s = Some n → T < now + n →
  entry_until d T tid (s :: p) now o = inr o.
Proof. intros Hs Hlt. simpl. rewrite Hs. rewrite decide_False; [done|lia]. Qed.

Lemma entry_until_stmt T s p now o o' :
  sleep_seconds d s = None → now <= T → entry_stmt d tid s o = inr o' →
  entry_until d T tid (s :: p) now o = entry_until d T tid p now o'.
Proof. intros Hs Hle He. simpl. rewrite Hs, He. by rewrite decide_True. Qed.

Lemma entry_until_before T s p now o :
  sleep_seconds d s = None → T < now →
  entry_until d T tid (s :: p) now o = inr o.
Proof. intros Hs Hlt. simpl. rewrite Hs. rewrite decide_False; [done|lia]. Qed.

(** Whatever the others do, at time [T] the record is the one the runner
    alone has made of it by then. *)
Lemma run_clock_entry T p now w w' :
  run_clock d T tid p now w w' →
  entry_until d T tid p now (entry tid w) = inr (entry tid w').
Proof.
  induction 1 as [now w|s p now w n Hs Hlt|s p now w n w' Hs Hle _ IH
                 |s p now w Hs Hlt
                 |s p now w w1 w' Hs Hle He _ IH|p now w w1 w' Hr _ IH].
  - done.
  - by eapply entry_until_asleep.
  - by rewrite (entry_until_slept _ _ _ _ _ _ Hs Hle).
  - by apply entry_until_before.
  - rewrite (entry_until_stmt _ _ _ _ _ _ Hs Hle (exec_stmt_ok _ _ _ _ _ He)). done.
  - unfold rely in Hr. by rewrite <- Hr.
Qed.

(** The runner alone is one of these executions. *)
Lemma run_until_clock T p now w w' :
  run_until d T tid p now w = (inr tt, w') →
  run_clock d T tid p now w w'.
Proof.
  revert now w. induction p as [|s p IH]; intros now w; simpl.
  - intros [= <-]. constructor.
  - destruct (sleep_seconds d s) as [n|] eqn:Hs.
    + case_decide.
      * intros Hr. eapply rc_slept; [done..|]. by apply IH.
      * intros [= <-]. eapply rc_asleep; [done|lia].
    + case_decide; [|intros [= <-]; eapply rc_before; [done|lia]].
      unfold bind. destruct (exec_stmt d tid s w) as [[e|[]] w1] eqn:He; [done|].
      intros Hr. eapply rc_stmt; [done..|]. by apply IH.
Qed.

Lemma sleep_entry_stmt s o n :
  sleep_seconds d s = Some n → entry_stmt d tid s o = inr o.
Proof. destruct s; simpl; try done. by intros ->. Qed.

(** A program that runs to its end runs up to any time [T]. *)
Lemma entry_until_total T p now o o1 :
  entry_run d tid p o = inr o1 → ∃ o', entry_until d T tid p now o = inr o'.
Proof.
  revert now o. induction p as [|s p IH]; intros now o; simpl; [eauto|].
  destruct (sleep_seconds d s) as [n|] eqn:Hs.
  - rewrite (sleep_entry_stmt _ _ _ Hs). case_decide; [apply IH|eauto].
  - case_decide; [|eauto]. destruct (entry_stmt d tid s o) as [e|o2]; [done|apply IH].
Qed.

Lemma simulate_until_total T t0 w :
  ∃ w', run_until d T tid simulate_baggage_processing t0 w = (inr tt, w').
Proof.
  destruct (entry_until_total T simulate_baggage_processing t0 (entry tid w) None
              (simulate_entry_run d tid _)) as [o' Ho'].
  destruct (run_until_entry d T tid _ t0 w o' Ho') as (w' & Hw' & _). eauto.
Qed.

Hypothesis Hd : valid_draws d.

(** From the start of the runner to the end of its first sleep the record
    is the one of stage 0. *)
Lemma until_first_stage t0 T o :
  t0 <= T < t0 + stage_time_1 d →
  entry_until d T tid simulate_baggage_processing t0 o
  = inr (Some (stage_status d tid 0)).
Proof.
  intros HT.
  change simulate_baggage_processing with
    ([InitStatus; Broadcast] ++ stage_body 0 ++ (range 3 ≫= (λ k, stage_body (k + 1))) ++ final_block).
  cbn [app stage_body].
  do 6 (erewrite entry_until_stmt; [|reflexivity|lia|reflexivity]).
  erewrite entry_until_asleep; [reflexivity|reflexivity|lia].
Qed.

(** From the completion of the task to the end of the retention sleep the
    record is the completed one. *)
Lemma until_completed t0 T o :
  done_at d t0 <= T < done_at d t0 + 300 →
  entry_until d T tid simulate_baggage_processing t0 o
  = inr (Some (completed_status d tid)).
Proof.
  intros HT. unfold done_at in HT. destruct Hd as (H1 & H2 & H3 & H4).
  change simulate_baggage_processing with
    ([InitStatus; Broadcast] ++ stage_body 0 ++ stage_body 1 ++ stage_body 2
       ++ stage_body 3 ++ final_block).
  cbn [app stage_body]. unfold final_block.
  do 2 (erewrite entry_until_stmt; [|reflexivity|lia|reflexivity]).
  do 4 (do 4 (erewrite entry_until_stmt; [|reflexivity|lia|reflexivity]);
        erewrite entry_until_slept; [|reflexivity|lia]).
  do 6 (erewrite entry_until_stmt; [|reflexivity|lia|reflexivity]).
  erewrite entry_until_asleep; [reflexivity|reflexivity|lia].
Qed.

(** Once the retention sleep has returned the record is gone. *)
Lemma until_evicted t0 T o :
  done_at d t0 + 300 <= T →
  entry_until d T tid simulate_baggage_processing t0 o = inr None.
Proof.
  intros HT. unfold done_at in HT. destruct Hd as (H1 & H2 & H3 & H4).
  change simulate_baggage_processing with
    ([InitStatus; Broadcast] ++ stage_body 0 ++ stage_body 1 ++ stage_body 2
       ++ stage_body 3 ++ final_block).
  cbn [app stage_body]. unfold final_block.
  do 2 (erewrite entry_until_stmt; [|reflexivity|lia|reflexivity]).
  do 4 (do 4 (erewrite entry_until_stmt; [|reflexivity|lia|reflexivity]);
        erewrite entry_until_slept; [|reflexivity|lia]).
  do 6 (erewrite entry_until_stmt; [|reflexivity|lia|reflexivity]).
  erewrite entry_until_slept; [|reflexivity|lia].
  erewrite entry_until_stmt; [|reflexivity|lia|reflexivity].
  reflexivity.
Qed.

End Clock.

(** ** Auxiliary facts on lists *)

Lemma omap_prefix {A B} (f : A → option B) (l1 l2 : list A) :
  l1 `prefix_of` l2 → omap f l1 `prefix_of` omap f l2.
Proof. intros [k ->]. rewrite omap_app. by eexists. Qed.

Lemma fmap_prefix {A B} (f : A → B) (l1 l2 : list A) :
  l1 `prefix_of` l2 → f <$> l1 `prefix_of` f <$> l2.
Proof. intros [k ->]. rewrite fmap_app. by eexists. Qed.

Lemma non_decreasing_prefix (l1 l2 : list Z) :
  l1 `prefix_of` l2 → non_decreasing l2 → non_decreasing l1.
Proof.
  intros Hp H i j x y Hij Hi Hj.
  apply (H i j x y Hij); by eapply prefix_lookup_Some.
Qed.

Lemma broadcast_stages_non_decreasing : non_decreasing [0; 0; 1; 2; 3; 4].
Proof.
  intros i j x y Hij Hi Hj.
  do 6 (destruct i as [|i]; [do 7 (destruct j as [|j]; simplify_eq/=; try lia)|]).
  done.
Qed.

(** ** A broadcast that meets no closed socket *)

Section BroadcastOpen.

Variable message : TaskRecord.
Variable tid : string.

Lemma broadcast_loop_open n i w conns :
  active_connections w !! tid = Some conns →
  (∀ c, c ∈ conns → c ∉ closed w) →
  n = (length conns - i)%nat →
  broadcast_loop n message tid i w
  = (inr tt, mkWorld (task_statuses w) (active_connections w) (closed w)
                     (delivered w ++ ((λ c, (c, message)) <$> drop i conns))).
Proof.
  revert i w. induction n as [|n IH]; intros i w Hl Hopen Hn.
  - simpl. rewrite drop_ge by lia. simpl. rewrite app_nil_r. by destruct w.
  - rewrite (broadcast_loop_S _ _ _ _ _ conns Hl).
    destruct (conns !! i) as [c|] eqn:Hi.
    + assert (c ∈ conns) as Hin by (apply list_elem_of_lookup; eauto).
      unfold try_except, send_text. rewrite decide_False by auto.
      rewrite (IH (S i)); [|done|done|simpl; lia].
      simpl. rewrite (drop_S _ _ _ Hi). simpl. by rewrite <- app_assoc.
    + apply lookup_ge_None in Hi. lia.
Qed.

(** Everyone on the list gets the message, in the order of the list, and
    the list is as it was. *)
Lemma broadcast_all_open w conns :
  active_connections w !! tid = Some conns →
  (∀ c, c ∈ conns → c ∉ closed w) →
  broadcast_to_task message tid w
  = (inr tt, mkWorld (task_statuses w) (active_connections w) (closed w)
                     (delivered w ++ ((λ c, (c, message)) <$> conns))).
Proof.
  intros Hl Hopen. unfold broadcast_to_task, bind, gets. rewrite Hl.
  rewrite (broadcast_loop_open (length conns) 0 w conns); [done..|lia].
Qed.

(** No list under the key: nothing happens. *)
Lemma broadcast_no_entry w :
  active_connections w !! tid = None → broadcast_to_task message tid w = (inr tt, w).
Proof. intros Hl. unfold broadcast_to_task, bind, gets. by rewrite Hl. Qed.

End BroadcastOpen.

(** ** Where a trace has got to *)

Section TraceSplit.

Variable d : Draws.
Variable tid : string.




End TraceSplit.

(** * The claims *)

(** ** C1 *)

(** C1.  Over the whole life of a task record (a fresh task id, any
    interleaving of the runner with the other coroutines, looked at after any
    number of steps), every step leaves the stage index and the progress
    percent at least as large as they were and never takes the status from
    Completed to anything else; the status goes from Processing to Completed
    in at most one step. *)
Theorem C1_record_monotone d tid w tr p' w' :
  entry tid w = None →
  run_trace d tid simulate_baggage_processing w tr p' w' →
  Forall (λ st, entry_le (around tid st)) tr ∧
  (length (filter (λ st, completes (around tid st) = true) tr) ≤ 1)%nat.
Proof.
  intros Hfresh Hrun. split.
  - apply (run_trace_Forall d entry_le tid simulate_baggage_processing w tr p' w'
             entry_le_refl); [|done].
    rewrite Hfresh. apply simulate_steps_le.
  - etrans; [apply (run_trace_filter d completes _ _ _ _ _ _ completes_refl Hrun)|].
    rewrite Hfresh. by rewrite simulate_steps_completes.
Qed.

Lemma C1_record_monotone_witness :
  let tr := seq_trace sample_draws "T1" simulate_baggage_processing (sample_world [7%nat] []) in
  entry "T1" (sample_world [7%nat] []) = None ∧
  Forall (λ st, entry_le (around "T1" st)) tr ∧
  (length (filter (λ st, completes (around "T1" st) = true) tr) ≤ 1)%nat.
Proof.
  split; [reflexivity|].
  apply (C1_record_monotone sample_draws "T1" (sample_world [7%nat] []) _ []
           (run sample_draws "T1" simulate_baggage_processing (sample_world [7%nat] [])).2).
  - reflexivity.
  - apply seq_trace_run. vm_compute. reflexivity.
Defined.

(** ** C4 *)

(** C4.  In any run of the stage runner the writes to the progress percent
    are, in order: for each stage index k from 0 to 3, on the record that
    carries stage index k, the float k / 4 * 100, that is 0, 25, 50 and 75;
    then, on the record that carries the terminal stage index 4, the integer
    100.  A run looked at before its end has made the first of these
    writes. *)
Theorem C4_progress_formula d tid w tr p' w' :
  run_trace d tid simulate_baggage_processing w tr p' w' →
  progress_writes tid tr
    `prefix_of` [(0, quarter_percent 0); (1, quarter_percent 1); (2, quarter_percent 2);
                 (3, quarter_percent 3); (4, PyInt 100)] ∧
  (p' = [] →
   progress_writes tid tr
   = [(0, quarter_percent 0); (1, quarter_percent 1); (2, quarter_percent 2);
      (3, quarter_percent 3); (4, PyInt 100)] ∧
   (λ x, (x.1, num_val x.2)) <$> progress_writes tid tr
   = [(0, Q2Qc (inject_Z 0)); (1, Q2Qc (inject_Z 25)); (2, Q2Qc (inject_Z 50));
      (3, Q2Qc (inject_Z 75)); (4, Q2Qc (inject_Z 100))]).
Proof.
  intros Hrun. split.
  - change (progress_writes tid tr `prefix_of` expected_progress_writes).
    rewrite <- (simulate_progress_writes d tid (entry tid w)).
    apply omap_prefix. by eapply run_trace_prefix.
  - intros ->. apply run_trace_own in Hrun. simpl in Hrun. rewrite app_nil_r in Hrun.
    assert (progress_writes tid tr = expected_progress_writes) as ->.
    { unfold progress_writes. rewrite Hrun. apply simulate_progress_writes. }
    split; [done|].
    unfold expected_progress_writes, quarter_percent. simpl.
    repeat f_equal; apply Qc_is_canon; reflexivity.
Qed.

Lemma C4_progress_formula_witness :
  let tr := seq_trace sample_draws "T1" simulate_baggage_processing (sample_world [7%nat] []) in
  (λ x, (x.1, num_val x.2)) <$> progress_writes "T1" tr
  = [(0, Q2Qc (inject_Z 0)); (1, Q2Qc (inject_Z 25)); (2, Q2Qc (inject_Z 50));
     (3, Q2Qc (inject_Z 75)); (4, Q2Qc (inject_Z 100))].
Proof.
  apply (C4_progress_formula sample_draws "T1" (sample_world [7%nat] []) _ []
           (run sample_draws "T1" simulate_baggage_processing (sample_world [7%nat] [])).2).
  - apply seq_trace_run. vm_compute. reflexivity.
  - reflexivity.
Defined.

(** ** C7 *)

(** C7, as amended.  In any run of the stage runner of a task id the stage
    indices of the messages it hands to the broadcast are, in order, 0, 0, 1,
    2, 3, 4 (a run looked at before its end has made the first of them): a
    later broadcast never carries a smaller stage index than an earlier one,
    and the first two broadcasts, the initial status and stage 0, carry the
    same index. *)
Theorem C7_broadcast_stages d tid w tr p' w' :
  run_trace d tid simulate_baggage_processing w tr p' w' →
  stage <$> broadcasts tid tr `prefix_of` [0; 0; 1; 2; 3; 4] ∧
  (p' = [] → stage <$> broadcasts tid tr = [0; 0; 1; 2; 3; 4]) ∧
  non_decreasing (stage <$> broadcasts tid tr).
Proof.
  intros Hrun.
  assert (stage <$> broadcasts tid tr `prefix_of` [0; 0; 1; 2; 3; 4]) as Hp.
  { rewrite <- (simulate_broadcast_stages d tid (entry tid w)).
    apply fmap_prefix, omap_prefix. by eapply run_trace_prefix. }
  split_and!; [done| |].
  - intros ->. apply run_trace_own in Hrun. simpl in Hrun. rewrite app_nil_r in Hrun.
    unfold broadcasts. rewrite Hrun. apply simulate_broadcast_stages.
  - eapply non_decreasing_prefix; [done|]. apply broadcast_stages_non_decreasing.
Qed.

Lemma C7_broadcast_stages_witness :
  let tr := seq_trace sample_draws "T1" simulate_baggage_processing (sample_world [7%nat] []) in
  stage <$> broadcasts "T1" tr `prefix_of` [0; 0; 1; 2; 3; 4] ∧
  ([] = @nil Stmt → stage <$> broadcasts "T1" tr = [0; 0; 1; 2; 3; 4]) ∧
  non_decreasing (stage <$> broadcasts "T1" tr).
Proof.
  apply (C7_broadcast_stages sample_draws "T1" (sample_world [7%nat] []) _ []
           (run sample_draws "T1" simulate_baggage_processing (sample_world [7%nat] [])).2).
  apply seq_trace_run. vm_compute. reflexivity.
Defined.

(** C7, as stated, fails: with one open subscriber attached to task "T1" the
    runner alone hands the broadcast the stage indices 0, 0, 1, 2, 3, 4, the
    subscriber receives frames with exactly these indices, and the first two
    are equal, so the sequence is not strictly increasing. *)
Lemma C7_counterexample :
  let w := sample_world [7%nat] [] in
  let w' := (run sample_draws "T1" simulate_baggage_processing w).2 in
  let tr := seq_trace sample_draws "T1" simulate_baggage_processing w in
  run_trace sample_draws "T1" simulate_baggage_processing w tr [] w' ∧
  (λ x, (x.1, stage x.2)) <$> delivered w'
    = [(7%nat, 0); (7%nat, 0); (7%nat, 1); (7%nat, 2); (7%nat, 3); (7%nat, 4)] ∧
  ¬ strictly_increasing (stage <$> broadcasts "T1" tr).
Proof.
  split_and!.
  - apply seq_trace_run. vm_compute. reflexivity.
  - vm_compute. reflexivity.
  - intros H. specialize (H 0%nat 1%nat 0 0).
    assert (0 < 0) as Hlt; [|lia].
    apply H; [lia|vm_compute; reflexivity..].
Qed.

(** ** C10 *)

(** C10.  After the creation of a task record (a fresh task id, any
    interleaving), no step changes its task id, its start time, its estimated
    completion or its baggage details: a record has these four fields and
    the five the runner writes (stage, stage name, progress, status,
    completion time). *)
Theorem C10_frame d tid w tr p' w' :
  entry tid w = None →
  run_trace d tid simulate_baggage_processing w tr p' w' →
  Forall (λ st, same_frame (around tid st)) tr.
Proof.
  intros Hfresh Hrun.
  apply (run_trace_Forall d same_frame tid simulate_baggage_processing w tr p' w'
           same_frame_refl); [|done].
  rewrite Hfresh. apply simulate_steps_frame.
Qed.

Lemma C10_frame_witness :
  let tr := seq_trace sample_draws "T1" simulate_baggage_processing (sample_world [7%nat] []) in
  entry "T1" (sample_world [7%nat] []) = None ∧
  Forall (λ st, same_frame (around "T1" st)) tr.
Proof.
  split; [reflexivity|].
  apply (C10_frame sample_draws "T1" (sample_world [7%nat] []) _ []
           (run sample_draws "T1" simulate_baggage_processing (sample_world [7%nat] [])).2).
  - reflexivity.
  - apply seq_trace_run. vm_compute. reflexivity.
Defined.

(** ** C3 *)

Lemma get_status_found tid w r :
  entry tid w = Some r → get_status tid w = (inr r, w).
Proof. unfold entry, get_status, bind, gets. by intros ->. Qed.

Lemma get_status_missing tid w :
  entry tid w = None → get_status tid w = (inl (HTTPException 404 "Task not found"), w).
Proof. unfold entry, get_status, bind, gets. by intros ->. Qed.

(** C3.  On the virtual clock, with the runner of a task started at [t0]
    and its task completed at [done_at d t0], whatever the other coroutines
    do in between: a status query at a time [T] in the 300 seconds from the
    completion on returns the completed record; a query at a time at which
    the retention sleep has returned gets the 404 "Task not found", the
    record having been deleted; and that is what a query for an id without a
    record gets in any world.  The runner gets to any time [T] without
    raising. *)
Theorem C3_retention d tid t0 T w :
  valid_draws d →
  (∃ w1, run_until d T tid simulate_baggage_processing t0 w = (inr tt, w1)) ∧
  (∀ w', run_clock d T tid simulate_baggage_processing t0 w w' →
     (done_at d t0 <= T < done_at d t0 + 300 →
      get_status tid w' = (inr (completed_status d tid), w')) ∧
     (done_at d t0 + 300 <= T →
      get_status tid w' = (inl (HTTPException 404 "Task not found"), w'))) ∧
  (∀ w0 tid0, entry tid0 w0 = None →
     get_status tid0 w0 = (inl (HTTPException 404 "Task not found"), w0)).
Proof.
  intros Hd. split_and!.
  - apply simulate_until_total.
  - intros w' Hrun. apply run_clock_entry in Hrun. split; intros HT.
    + rewrite (until_completed d tid Hd t0 T _ HT) in Hrun.
      apply get_status_found. congruence.
    + rewrite (until_evicted d tid Hd t0 T _ HT) in Hrun.
      apply get_status_missing. congruence.
  - intros w0 tid0. apply get_status_missing.
Qed.

Lemma C3_retention_witness :
  valid_draws sample_draws ∧
  (let w' := (run_until sample_draws 100 "T1" simulate_baggage_processing 0
                (sample_world [7%nat] [])).2 in
   get_status "T1" w' = (inr (completed_status sample_draws "T1"), w')) ∧
  (let w' := (run_until sample_draws 390 "T1" simulate_baggage_processing 0
                (sample_world [7%nat] [])).2 in
   get_status "T1" w' = (inl (HTTPException 404 "Task not found"), w')).
Proof.
  assert (valid_draws sample_draws) as Hd by (vm_compute; intuition discriminate).
  destruct (C3_retention sample_draws "T1" 0 100 (sample_world [7%nat] []) Hd)
    as (_ & H1 & _).
  destruct (C3_retention sample_draws "T1" 0 390 (sample_world [7%nat] []) Hd)
    as (_ & H2 & _).
  split_and!; [done| |].
  - apply H1; [apply run_until_clock|]; vm_compute; [reflexivity|intuition discriminate].
  - apply H2; [apply run_until_clock|]; vm_compute; [reflexivity|intuition discriminate].
Defined.

(** ** C8 *)




(** ** C6 *)



(** ** C2 *)

(** C2 is not what the code does.  Subscribers 0 and 1 attach to task "T1",
    in this order, and the socket of 0 is closed.  The broadcast fails on 0
    and removes it; the removal moves 1 to index 0, the iterator goes on to
    index 1 and finds the list exhausted: nothing has been delivered, and 1,
    whose socket is open and which is still attached, has missed the
    broadcast. *)
Theorem C2_broadcast_skips_after_failure message :
  close_socket 0%nat ((connect 0%nat "T1" ;; connect 1%nat "T1") empty_world).2
  = sample_world [0; 1]%nat [0%nat] ∧
  broadcast_to_task message "T1" (sample_world [0; 1]%nat [0%nat])
  = (inr tt, sample_world [1%nat] [0%nat]) ∧
  delivered (sample_world [1%nat] [0%nat]) = [] ∧
  1%nat ∉ closed (sample_world [0; 1]%nat [0%nat]).
Proof.
  split_and!.
  - vm_compute. reflexivity.
  - vm_compute. reflexivity.
  - reflexivity.
  - vm_compute. set_solver.
Qed.

(** ** C5 *)

(** C5 is not what the code does.  Detaching a subscriber that is not on the
    list of an id that has a list raises ValueError: subscriber 0 from the
    list of "T1" on which 1 alone has attached; subscriber 0 a second time
    after a first detach that went well; subscriber 0 after a broadcast that
    has removed it for its closed socket.  The other subscribers stay as they
    were. *)
Theorem C5_detach_absent_raises message :
  (connect 1%nat "T1" ;; disconnect 0%nat "T1") empty_world
  = (inl ValueError, sample_world [1%nat] []) ∧
  (connect 0%nat "T1" ;; connect 1%nat "T1" ;;
   disconnect 0%nat "T1" ;; disconnect 0%nat "T1") empty_world
  = (inl ValueError, sample_world [1%nat] []) ∧
  (broadcast_to_task message "T1" ;; disconnect 0%nat "T1")
    (sample_world [0; 1]%nat [0%nat])
  = (inl ValueError, sample_world [1%nat] [0%nat]).
Proof. split_and!; vm_compute; reflexivity. Qed.

(** ** C9 *)

(** C9 is not what the code does.  Subscriber 0 alone attaches to task "T1"
    and its socket is closed: every list of the hub is non-empty.  The
    broadcast removes 0 and leaves the empty list under "T1", where
    [disconnect] deletes the key ([unregistered], [disconnect_hub_inv]). *)
Theorem C9_broadcast_leaves_empty_list message :
  close_socket 0%nat (connect 0%nat "T1" empty_world).2 = sample_world [0%nat] [0%nat] ∧
  hub_inv (sample_world [0%nat] [0%nat]) ∧
  broadcast_to_task message "T1" (sample_world [0%nat] [0%nat])
  = (inr tt, sample_world [] [0%nat]) ∧
  ¬ hub_inv (sample_world [] [0%nat]).
Proof.
  split_and!.
  - vm_compute. reflexivity.
  - intros tid conns. unfold sample_world. simpl.
    rewrite lookup_singleton. case_decide; [|done]. by intros [= <-].
  - vm_compute. reflexivity.
  - intros H. by apply (H "T1"%string []).
Qed.

(** * Further properties of the code *)

(** ** The broadcast loop in full *)

Section BroadcastWalk.

Variable message : TaskRecord.
Variable tid : string.
Implicit Types (w : World) (conns pre suf : list WebSocket).

Lemma list_remove_first ws pre suf :
  ws ∉ pre → list_remove ws (pre ++ ws :: suf) = Some (pre ++ suf).
Proof.
  induction pre as [|y pre IH]; simpl; intros Hni.
  - by rewrite decide_True.
  - apply not_elem_of_cons in Hni as [Hne Hni].
    rewrite decide_False by done. by rewrite IH.
Qed.

Lemma broadcast_loop_exhausted n i w conns :
  active_connections w !! tid = Some conns → (length conns ≤ i)%nat →
  broadcast_loop n message tid i w = (inr tt, w).
Proof.
  intros Hl Hi. destruct n as [|n]; [done|].
  rewrite (broadcast_loop_S _ _ _ _ _ conns Hl).
  by rewrite (lookup_ge_None_2 conns i).
Qed.

Lemma world_unchanged w conns :
  active_connections w !! tid = Some conns →
  mkWorld (task_statuses w) (<[tid := conns]> (active_connections w)) (closed w)
          (delivered w ++ []) = w.
Proof. intros Hl. rewrite insert_id by done. rewrite app_nil_r. by destruct w. Qed.

Lemma broadcast_loop_walk n pre suf w :
  active_connections w !! tid = Some (pre ++ suf) →
  NoDup (pre ++ suf) →
  (length suf ≤ n)%nat →
  broadcast_loop n message tid (length pre) w
  = (inr tt,
     mkWorld (task_statuses w)
             (<[tid := pre ++ (broadcast_walk (λ c, bool_decide (c ∈ closed w)) suf).1]>
                (active_connections w))
             (closed w)
             (delivered w
                ++ frames_to (broadcast_walk (λ c, bool_decide (c ∈ closed w)) suf).2 message)).
Proof.
  revert pre suf w. induction n as [|n IH]; intros pre suf w Hl Hnd Hlen.
  - destruct suf; [|simpl in Hlen; lia]. simpl.
    rewrite app_nil_r in *. by rewrite world_unchanged.
  - destruct suf as [|c rest].
    { rewrite (broadcast_loop_exhausted _ _ _ _ Hl) by (rewrite length_app; simpl; lia).
      simpl. rewrite app_nil_r in *. by rewrite world_unchanged. }
    rewrite (broadcast_loop_S _ _ _ _ _ _ Hl).
    rewrite (list_lookup_middle pre rest c (length pre) eq_refl).
    unfold try_except, send_text. cbn [broadcast_walk].
    destruct (decide (c ∈ closed w)) as [Hc|Hc].
    + rewrite (bool_decide_eq_true_2 _ Hc).
      assert (c ∉ pre) as Hni.
      { apply list.NoDup_app in Hnd as (_ & Hd & _). intros Hin. apply (Hd c Hin). left. }
      unfold remove_connection, bind, gets, from_option, ret, modify.
      rewrite Hl, (list_remove_first _ _ _ Hni). cbn beta iota.
      destruct rest as [|c' rest'].
      * rewrite (broadcast_loop_exhausted _ _ _ (pre ++ []));
          [|simpl; by rewrite lookup_insert_eq|rewrite length_app; simpl; lia].
        unfold set_active_connections, frames_to. simpl. by rewrite !app_nil_r.
      * assert (S (length pre) = length (pre ++ [c'])) as -> by (rewrite length_app; simpl; lia).
        rewrite (IH (pre ++ [c']) rest').
        -- simpl. rewrite insert_insert_eq.
           destruct (broadcast_walk _ rest') as [kept reached]. simpl.
           by rewrite <- app_assoc.
        -- simpl. rewrite lookup_insert_eq. by rewrite <- app_assoc.
        -- rewrite <- app_assoc. simpl.
           apply list.NoDup_app in Hnd as (Hp & Hd & Hs). apply list.NoDup_app. split_and!.
           ++ done.
           ++ intros x Hx Hx'. apply (Hd x Hx). by right.
           ++ by apply list.NoDup_cons in Hs as [_ Hs].
        -- simpl in Hlen. lia.
    + rewrite (bool_decide_eq_false_2 _ Hc).
      assert (S (length pre) = length (pre ++ [c])) as -> by (rewrite length_app; simpl; lia).
      rewrite (IH (pre ++ [c]) rest).
      * simpl. destruct (broadcast_walk _ rest) as [kept reached]. simpl.
        unfold frames_to. simpl. by rewrite <- !app_assoc.
      * simpl. by rewrite <- app_assoc.
      * by rewrite <- app_assoc.
      * simpl in Hlen. lia.
Qed.

End BroadcastWalk.

Section BroadcastSafety.

Variable message : TaskRecord.
Variable tid : string.
Implicit Types (w : World) (conns : list WebSocket).

Lemma list_remove_sublist ws conns conns' :
  list_remove ws conns = Some conns' → conns' `sublist_of` conns.
Proof.
  revert conns'. induction conns as [|y l IH]; simpl; intros l' H; [done|].
  case_decide; simplify_eq.
  - by apply sublist_cons.
  - destruct (list_remove ws l) as [l0|]; simplify_eq/=.
    apply sublist_skip. by apply IH.
Qed.

Lemma broadcast_round_full c w conns :
  active_connections w !! tid = Some conns →
  c ∈ conns →
  ∃ w1 conns1 extra,
    try_except (send_text c message) (remove_connection tid c) w = (inr tt, w1) ∧
    active_connections w1 = <[tid := conns1]> (active_connections w) ∧
    conns1 `sublist_of` conns ∧
    task_statuses w1 = task_statuses w ∧ closed w1 = closed w ∧
    delivered w1 = delivered w ++ extra ∧
    Forall (λ x, x.2 = message ∧ x.1 ∈ conns ∧ x.1 ∉ closed w) extra.
Proof.
  intros Hl Hin. unfold try_except, send_text.
  case_decide.
  - destruct (list_remove_elem _ _ Hin) as [l' Hl'].
    unfold remove_connection, bind, gets, from_option, ret, modify.
    rewrite Hl, Hl'. eexists _, l', []. split; [done|]. simpl.
    rewrite app_nil_r. split_and!; try done. by eapply list_remove_sublist.
  - eexists _, conns, [(c, message)]. split; [done|]. simpl.
    rewrite insert_id by done. split_and!; try done.
    by repeat constructor.
Qed.

Lemma broadcast_loop_full fuel i w conns :
  active_connections w !! tid = Some conns →
  ∃ w' conns' extra,
    broadcast_loop fuel message tid i w = (inr tt, w') ∧
    active_connections w' = <[tid := conns']> (active_connections w) ∧
    conns' `sublist_of` conns ∧
    task_statuses w' = task_statuses w ∧ closed w' = closed w ∧
    delivered w' = delivered w ++ extra ∧
    Forall (λ x, x.2 = message ∧ x.1 ∈ conns ∧ x.1 ∉ closed w) extra.
Proof.
  revert i w conns. induction fuel as [|fuel IH]; intros i w conns Hl.
  - exists w, conns, []. simpl. rewrite insert_id, app_nil_r by done. by split_and!.
  - rewrite (broadcast_loop_S _ _ _ _ _ conns Hl).
    destruct (conns !! i) as [c|] eqn:Hi.
    + assert (c ∈ conns) as Hin by (apply list_elem_of_lookup; eauto).
      destruct (broadcast_round_full c w conns Hl Hin)
        as (w1 & conns1 & extra1 & Hr & Hac1 & Hsub1 & Hts1 & Hcl1 & Hd1 & Hf1).
      rewrite Hr.
      destruct (IH (S i) w1 conns1) as (w' & conns' & extra & Hw' & Hac & Hsub & Hts & Hcl & Hd & Hf).
      { by rewrite Hac1, lookup_insert_eq. }
      exists w', conns', (extra1 ++ extra). rewrite Hw'. split_and!.
      * done.
      * by rewrite Hac, Hac1, insert_insert_eq.
      * by etrans.
      * congruence.
      * congruence.
      * by rewrite Hd, Hd1, <- app_assoc.
      * apply Forall_app. split; [done|].
        eapply list.Forall_impl; [done|]. intros x (Hm & Hx & Hcx). split_and!; [done| |].
        -- by eapply elem_of_sublist.
        -- by rewrite <- Hcl1.
    + exists w, conns, []. rewrite insert_id, app_nil_r by done. by split_and!.
Qed.

End BroadcastSafety.

(** X1.  A broadcast never raises, whatever the sockets do.  It leaves the
    registry, the closed sockets and the lists of the other task ids as they
    were; on an id without a list it does nothing at all; a list it finds
    stays under its key and can only lose subscribers, in their order. *)
Theorem X1_broadcast_never_raises message tid w :
  ∃ w', broadcast_to_task message tid w = (inr tt, w') ∧
        task_statuses w' = task_statuses w ∧ closed w' = closed w ∧
        (∀ tid', tid' ≠ tid → active_connections w' !! tid' = active_connections w !! tid') ∧
        match active_connections w !! tid with
        | None => w' = w
        | Some conns =>
            ∃ conns', active_connections w' !! tid = Some conns' ∧ conns' `sublist_of` conns
        end.
Proof.
  unfold broadcast_to_task, bind, gets.
  destruct (active_connections w !! tid) as [conns|] eqn:Hl.
  - destruct (broadcast_loop_full message tid (length conns) 0 w conns Hl)
      as (w' & conns' & extra & Hw' & Hac & Hsub & Hts & Hcl & _).
    exists w'. split_and!; try done.
    + intros tid' Hne. by rewrite Hac, lookup_insert_ne.
    + exists conns'. by rewrite Hac, lookup_insert_eq.
  - exists w. by split_and!.
Qed.

(** X2.  Every frame a broadcast sends carries the message and goes to a
    socket that is on the list of the task id and is not closed; nothing else
    is added to what the transport has sent, and nothing is taken from it. *)
Theorem X2_broadcast_frames message tid w conns :
  active_connections w !! tid = Some conns →
  ∃ extra, delivered (broadcast_to_task message tid w).2 = delivered w ++ extra ∧
           Forall (λ x, x.2 = message ∧ x.1 ∈ conns ∧ x.1 ∉ closed w) extra.
Proof.
  intros Hl. unfold broadcast_to_task, bind, gets. rewrite Hl.
  destruct (broadcast_loop_full message tid (length conns) 0 w conns Hl)
    as (w' & conns' & extra & Hw' & _ & _ & _ & _ & Hd & Hf).
  exists extra. by rewrite Hw'.
Qed.

Lemma X2_broadcast_frames_witness :
  ∃ extra,
    delivered (broadcast_to_task (initial_status sample_draws "T1") "T1"
                 (sample_world [0; 1; 2]%nat [0%nat])).2
    = delivered (sample_world [0; 1; 2]%nat [0%nat]) ++ extra ∧
    Forall (λ x, x.2 = initial_status sample_draws "T1" ∧ x.1 ∈ [0; 1; 2]%nat ∧
                 x.1 ∉ closed (sample_world [0; 1; 2]%nat [0%nat])) extra.
Proof.
  apply (X2_broadcast_frames (initial_status sample_draws "T1") "T1"
           (sample_world [0; 1; 2]%nat [0%nat]) [0; 1; 2]%nat).
  reflexivity.
Defined.

(** X3.  When none of the sockets on the list of a task id is closed, a
    broadcast sends the message to each of them once, in the order of the
    list, and changes nothing else. *)
Theorem X3_broadcast_reaches_all message tid w conns :
  active_connections w !! tid = Some conns →
  (∀ c, c ∈ conns → c ∉ closed w) →
  broadcast_to_task message tid w
  = (inr tt, mkWorld (task_statuses w) (active_connections w) (closed w)
                     (delivered w ++ frames_to conns message)).
Proof. apply broadcast_all_open. Qed.

Lemma X3_broadcast_reaches_all_witness :
  broadcast_to_task (initial_status sample_draws "T1") "T1" (sample_world [1; 2]%nat [])
  = (inr tt, mkWorld ∅ {["T1"%string := [1; 2]%nat]} ∅
               (frames_to [1; 2]%nat (initial_status sample_draws "T1"))).
Proof.
  apply (X3_broadcast_reaches_all (initial_status sample_draws "T1") "T1"
           (sample_world [1; 2]%nat []) [1; 2]%nat).
  - reflexivity.
  - intros c _. vm_compute. set_solver.
Defined.

(** X4.  On a list without repetitions a broadcast does exactly what
    [broadcast_walk] describes: an open socket is sent the message and stays;
    a closed socket is removed and the subscriber after it is passed over,
    staying on the list without the message, open or closed.  So a closed
    socket that follows a closed one stays attached, and an open socket that
    follows a closed one misses the message. *)
Theorem X4_broadcast_walk message tid w conns :
  active_connections w !! tid = Some conns →
  NoDup conns →
  broadcast_to_task message tid w
  = (inr tt,
     mkWorld (task_statuses w)
             (<[tid := (broadcast_walk (λ c, bool_decide (c ∈ closed w)) conns).1]>
                (active_connections w))
             (closed w)
             (delivered w
                ++ frames_to (broadcast_walk (λ c, bool_decide (c ∈ closed w)) conns).2 message)).
Proof.
  intros Hl Hnd. unfold broadcast_to_task, bind, gets. rewrite Hl.
  by apply (broadcast_loop_walk message tid (length conns) [] conns w).
Qed.

Lemma X4_broadcast_walk_witness :
  broadcast_to_task (initial_status sample_draws "T1") "T1"
    (sample_world [0; 1; 2; 3; 4]%nat [0; 1; 3]%nat)
  = (inr tt,
     mkWorld ∅ {["T1"%string := [1; 2; 4]%nat]} (list_to_set [0; 1; 3]%nat)
       (frames_to [2%nat] (initial_status sample_draws "T1"))).
Proof.
  rewrite (X4_broadcast_walk (initial_status sample_draws "T1") "T1"
             (sample_world [0; 1; 2; 3; 4]%nat [0; 1; 3]%nat) [0; 1; 2; 3; 4]%nat).
  - vm_compute. reflexivity.
  - reflexivity.
  - apply (bool_decide_unpack _). vm_compute. done.
Defined.

(** ** Attach and detach *)

(** X5.  Detaching a subscriber that is on the list of the task id removes
    its first occurrence and nothing else, without an error; when that
    empties the list, the key is deleted.  The lists of the other ids, the
    registry, the closed sockets and the frames sent are as they were. *)
Theorem X5_detach_first_occurrence ws tid w pre suf :
  active_connections w !! tid = Some (pre ++ ws :: suf) →
  ws ∉ pre →
  disconnect ws tid w
  = (inr tt,
     mkWorld (task_statuses w)
             (match pre ++ suf with
              | [] => delete tid (active_connections w)
              | _ => <[tid := pre ++ suf]> (active_connections w)
              end)
             (closed w) (delivered w)).
Proof.
  intros Hl Hni.
  rewrite (disconnect_present ws tid w _ (pre ++ suf) Hl)
    by (by apply list_remove_first).
  unfold unregistered, set_active_connections. by destruct (pre ++ suf).
Qed.

Lemma X5_detach_first_occurrence_witness :
  disconnect 2%nat "T1" (sample_world [1; 2; 3; 2]%nat [])
  = (inr tt, sample_world [1; 3; 2]%nat []) ∧
  disconnect 2%nat "T1" (sample_world [2%nat] []) = (inr tt, empty_world).
Proof.
  split.
  - rewrite (X5_detach_first_occurrence 2%nat "T1" (sample_world [1; 2; 3; 2]%nat [])
               [1%nat] [3; 2]%nat).
    + vm_compute. reflexivity.
    + reflexivity.
    + by apply (bool_decide_unpack _).
  - rewrite (X5_detach_first_occurrence 2%nat "T1" (sample_world [2%nat] []) [] []).
    + vm_compute. reflexivity.
    + reflexivity.
    + by apply (bool_decide_unpack _).
Defined.

(** X6.  Detaching a subscriber that is not attached changes nothing in the
    world, whatever the outcome: for an id without a list the call returns
    normally, for an id with a list it raises ValueError. *)
Theorem X6_detach_not_attached ws tid w :
  ws ∉ default [] (active_connections w !! tid) →
  (disconnect ws tid w).2 = w ∧
  (disconnect ws tid w).1
  = match active_connections w !! tid with
    | None => inr tt
    | Some _ => inl ValueError
    end.
Proof.
  intros Hni. destruct (active_connections w !! tid) as [conns|] eqn:Hl.
  - by rewrite (disconnect_missing ws tid w conns Hl Hni).
  - by rewrite disconnect_absent.
Qed.

Lemma X6_detach_not_attached_witness :
  disconnect 5%nat "T2" (sample_world [1%nat] []) = (inr tt, sample_world [1%nat] []) ∧
  disconnect 5%nat "T1" (sample_world [1%nat] []) = (inl ValueError, sample_world [1%nat] []).
Proof.
  destruct (X6_detach_not_attached 5%nat "T2" (sample_world [1%nat] [])) as [H1 H2];
    [by apply (bool_decide_unpack _)|].
  destruct (X6_detach_not_attached 5%nat "T1" (sample_world [1%nat] [])) as [H3 H4];
    [by apply (bool_decide_unpack _)|].
  split.
  - rewrite <- H1 at 2. rewrite (surjective_pairing (disconnect _ _ _)). by rewrite H2.
  - rewrite <- H3 at 2. rewrite (surjective_pairing (disconnect _ _ _)). by rewrite H4.
Defined.

(** X7.  Attach and detach keep the hub free of empty lists: when every
    list of the hub has a subscriber before the call, every list has one
    after it, whether the call raises or not. *)
Theorem X7_attach_detach_keep_lists_nonempty ws tid w :
  hub_inv w →
  hub_inv (connect ws tid w).2 ∧ hub_inv (disconnect ws tid w).2.
Proof. intros H. split; [by apply connect_hub_inv|by apply disconnect_hub_inv]. Qed.

Lemma X7_attach_detach_keep_lists_nonempty_witness :
  hub_inv (connect 2%nat "T1" (sample_world [1%nat] [])).2 ∧
  hub_inv (disconnect 1%nat "T1" (sample_world [1%nat] [])).2.
Proof.
  split.
  - apply (X7_attach_detach_keep_lists_nonempty 2%nat "T1" (sample_world [1%nat] [])).
    intros tid conns. unfold sample_world. simpl.
    rewrite lookup_singleton. case_decide; [|done]. by intros [= <-].
  - apply (X7_attach_detach_keep_lists_nonempty 1%nat "T1" (sample_world [1%nat] [])).
    intros tid conns. unfold sample_world. simpl.
    rewrite lookup_singleton. case_decide; [|done]. by intros [= <-].
Defined.

(** X8.  A subscriber whose handshake goes through and that attaches and
    then detaches leaves the hub and the registry as it found them, provided
    it was not already on the list and the id did not have an empty list. *)
Theorem X8_attach_then_detach ws tid w :
  ws ∉ closed w →
  ws ∉ default [] (active_connections w !! tid) →
  active_connections w !! tid ≠ Some [] →
  ∃ w1 w2, connect ws tid w = (inr tt, w1) ∧
           disconnect ws tid w1 = (inr tt, w2) ∧
           active_connections w2 = active_connections w ∧
           task_statuses w2 = task_statuses w.
Proof.
  intros Hopen Hni Hne.
  set (conns := default [] (active_connections w !! tid)) in *.
  assert (∃ w1, connect ws tid w = (inr tt, w1) ∧
                active_connections w1 = <[tid := conns ++ [ws]]> (active_connections w) ∧
                task_statuses w1 = task_statuses w) as (w1 & Hc & Hac & Hts).
  { rewrite connect_spec, decide_False by done. destruct (entry tid w).
    - unfold send_personal_message, send_text. rewrite decide_False by done.
      by eexists.
    - by eexists. }
  assert (list_remove ws (conns ++ [ws]) = Some conns) as Hr.
  { rewrite (list_remove_first ws conns [] Hni). by rewrite app_nil_r. }
  exists w1. eexists. split; [done|]. split.
  - apply (disconnect_present ws tid _ (conns ++ [ws]) conns); [|done].
    by rewrite Hac, lookup_insert_eq.
  - unfold unregistered. simpl. rewrite Hac, Hts. split; [|done].
    subst conns. destruct (active_connections w !! tid) as [l|] eqn:Hl; simpl.
    + destruct l; [done|]. rewrite insert_insert_eq. by apply insert_id.
    + rewrite delete_insert_eq. by apply delete_id.
Qed.

Lemma X8_attach_then_detach_witness :
  ∃ w1 w2, connect 2%nat "T1" (sample_world [1%nat] []) = (inr tt, w1) ∧
           disconnect 2%nat "T1" w1 = (inr tt, w2) ∧
           active_connections w2 = active_connections (sample_world [1%nat] []) ∧
           task_statuses w2 = task_statuses (sample_world [1%nat] []).
Proof.
  apply (X8_attach_then_detach 2%nat "T1" (sample_world [1%nat] [])).
  - vm_compute. set_solver.
  - by apply (bool_decide_unpack _).
  - vm_compute. discriminate.
Defined.

(** X9.  The subscriber hub and the status endpoint never write to the
    registry: after an attach, a detach, a broadcast or a status query the
    registry is what it was, whether the call raised or not, and a status
    query changes nothing at all. *)
Theorem X9_registry_untouched ws message tid w :
  task_statuses (connect ws tid w).2 = task_statuses w ∧
  task_statuses (disconnect ws tid w).2 = task_statuses w ∧
  task_statuses (broadcast_to_task message tid w).2 = task_statuses w ∧
  (get_status tid w).2 = w.
Proof.
  split_and!; [apply connect_registry|apply disconnect_registry
              |apply broadcast_registry|apply get_status_state].
Qed.

(** X10.  An attach on a socket the transport has already lost raises at
    the handshake and changes nothing: the subscriber is not put on the list
    of the task id, no list is created for the id, and nothing is sent, with
    or without a record for the id. *)
Theorem X10_attach_closed_socket ws tid w :
  ws ∈ closed w →
  connect ws tid w = (inl AcceptFailed, w).
Proof. intros Hc. rewrite connect_spec. by rewrite decide_True. Qed.

Lemma X10_attach_closed_socket_witness :
  let w := mkWorld {["T1"%string := initial_status sample_draws "T1"]} ∅ {[7%nat]} [] in
  connect 7%nat "T1" w = (inl AcceptFailed, w).
Proof.
  apply (X10_attach_closed_socket 7%nat "T1").
  vm_compute. set_solver.
Defined.

(** ** The runner and the rest of the world *)

Section RunnerFrame.

Variable d : Draws.
Implicit Types (tid : string) (w : World) (s : Stmt) (p : list Stmt).

Lemma broadcast_others message tid tid' w :
  tid' ≠ tid →
  active_connections (broadcast_to_task message tid w).2 !! tid'
  = active_connections w !! tid'.
Proof.
  intros Hne. unfold broadcast_to_task, bind, gets.
  destruct (active_connections w !! tid) as [conns|] eqn:Hl; [|done].
  destruct (broadcast_loop_full message tid (length conns) 0 w conns Hl)
    as (w' & conns' & extra & -> & Hac & _).
  simpl. by rewrite Hac, lookup_insert_ne.
Qed.

Lemma broadcast_closed message tid w :
  closed (broadcast_to_task message tid w).2 = closed w.
Proof. by destruct (broadcast_to_task_ok message tid w) as (w' & -> & _ & ?). Qed.

(** A statement of the runner of [tid] leaves the closed sockets and the
    lists of the other ids alone. *)
Lemma exec_stmt_hub tid tid' s w :
  tid' ≠ tid →
  closed (exec_stmt d tid s w).2 = closed w ∧
  active_connections (exec_stmt d tid s w).2 !! tid' = active_connections w !! tid'.
Proof.
  intros Hne.
  assert (∀ f, closed (update_task tid f w).2 = closed w ∧
               active_connections (update_task tid f w).2 !! tid'
               = active_connections w !! tid') as Hup.
  { intros f. rewrite update_task_spec. by destruct (entry tid w). }
  destruct s as [| |k|k|k| | | |k| |]; cbn [exec_stmt]; try apply Hup.
  - done.
  - unfold bind, gets, from_option.
    destruct (task_statuses w !! tid) as [r|]; simpl; [|done].
    unfold ret. by rewrite broadcast_closed, broadcast_others.
  - unfold bind, from_option.
    destruct (py_getitem PROCESSING_STAGES k); simpl; [apply Hup|done].
  - unfold bind, from_option. by destruct (py_getitem (stage_times d) k).
  - done.
  - unfold bind, gets. by destruct (task_statuses w !! tid).
Qed.

Lemma run_rely tid tid' p w :
  tid' ≠ tid → entry tid (run d tid' p w).2 = entry tid w.
Proof.
  intros Hne. revert w. induction p as [|s p IH]; intros w; simpl; [done|].
  unfold bind. pose proof (exec_stmt_rely d tid tid' s w Hne) as Hr.
  destruct (exec_stmt d tid' s w) as [[e|[]] w1]; simpl in *; [done|].
  by rewrite IH.
Qed.

Lemma run_hub tid tid' p w :
  tid' ≠ tid →
  closed (run d tid p w).2 = closed w ∧
  active_connections (run d tid p w).2 !! tid' = active_connections w !! tid'.
Proof.
  intros Hne. revert w. induction p as [|s p IH]; intros w; simpl; [done|].
  unfold bind. pose proof (exec_stmt_hub tid tid' s w Hne) as [Hc Ha].
  destruct (exec_stmt d tid s w) as [[e|[]] w1]; simpl in *; [done|].
  destruct (IH w1) as [Hc' Ha']. split; congruence.
Qed.

Lemma run_closed tid p w : closed (run d tid p w).2 = closed w.
Proof.
  revert w. induction p as [|s p IH]; intros w; simpl; [done|].
  unfold bind.
  assert (closed (exec_stmt d tid s w).2 = closed w) as Hc.
  { assert (∀ f, closed (update_task tid f w).2 = closed w) as Hup.
    { intros f. rewrite update_task_spec. by destruct (entry tid w). }
    destruct s as [| |k|k|k| | | |k| |]; cbn [exec_stmt]; try apply Hup.
    - done.
    - unfold bind, gets, from_option.
      destruct (task_statuses w !! tid) as [r|]; simpl; [|done].
      unfold ret. by rewrite broadcast_closed.
    - unfold bind, from_option.
      destruct (py_getitem PROCESSING_STAGES k); simpl; [apply Hup|done].
    - unfold bind, from_option. by destruct (py_getitem (stage_times d) k).
    - done.
    - unfold bind, gets. by destruct (task_statuses w !! tid). }
  destruct (exec_stmt d tid s w) as [[e|[]] w1]; simpl in *; [done|].
  by rewrite IH.
Qed.

End RunnerFrame.

(** X11.  Started in any world, the runner runs to its end without raising,
    whatever the subscribers and their sockets are.  When it ends the
    registry is the one it found without the record of its task id, and the
    closed sockets and the lists of the other task ids are as they were. *)
Theorem X11_runner_runs_to_end d tid w :
  ∃ w', run d tid simulate_baggage_processing w = (inr tt, w') ∧
        task_statuses w' = delete tid (task_statuses w) ∧
        closed w' = closed w ∧
        (∀ tid', tid' ≠ tid → active_connections w' !! tid' = active_connections w !! tid').
Proof.
  destruct (simulate_total d tid w) as (w' & Hrun & Hnone).
  exists w'. split_and!; [done| | |].
  - apply map_eq. intros j. destruct (decide (j = tid)) as [->|Hne].
    + by rewrite lookup_delete_eq.
    + rewrite lookup_delete_ne by done.
      pose proof (run_rely d j tid simulate_baggage_processing w) as Hr.
      rewrite Hrun in Hr. apply Hr. done.
  - pose proof (run_closed d tid simulate_baggage_processing w) as Hc.
    by rewrite Hrun in Hc.
  - intros tid' Hne. pose proof (run_hub d tid tid' simulate_baggage_processing w Hne) as Hh.
    rewrite Hrun in Hh. apply Hh.
Qed.

(** X12.  The runner of one task never changes the record of another: after
    any part of the coroutine of [tid'], ended or raised, the record of a
    different id [tid] is what it was. *)
Theorem X12_runner_leaves_other_records d tid tid' p w :
  tid' ≠ tid →
  task_statuses (run d tid' p w).2 !! tid = task_statuses w !! tid.
Proof. intros Hne. by apply run_rely. Qed.

Lemma X12_runner_leaves_other_records_witness :
  let w := mkWorld {["T1"%string := initial_status sample_draws "T1"]} ∅ ∅ [] in
  task_statuses (run sample_draws "T2" simulate_baggage_processing w).2 !! "T1"%string
  = task_statuses w !! "T1"%string.
Proof.
  apply (X12_runner_leaves_other_records sample_draws "T1" "T2"). discriminate.
Defined.

(** ** The record over time *)

Ltac until_step :=
  first
    [ erewrite entry_until_stmt; [|reflexivity|lia|reflexivity]
    | erewrite entry_until_slept; [|reflexivity|lia]
    | erewrite entry_until_asleep; [|reflexivity|lia]
    | erewrite entry_until_before; [|reflexivity|lia] ].

Section Timeline.

Variable d : Draws.
Variable tid : string.
Hypothesis Hd : valid_draws d.

(** What the record of the task is at time [T], the runner being started at
    [t0]. *)
Lemma until_timeline t0 T o :
  entry_until d T tid simulate_baggage_processing t0 o
  = inr (if decide (T < t0) then o
         else if decide (T < stage_begin d t0 1) then Some (stage_status d tid 0)
         else if decide (T < stage_begin d t0 2) then Some (stage_status d tid 1)
         else if decide (T < stage_begin d t0 3) then Some (stage_status d tid 2)
         else if decide (T < stage_begin d t0 4) then Some (stage_status d tid 3)
         else if decide (T < done_at d t0 + 300) then Some (completed_status d tid)
         else None).
Proof.
  destruct Hd as (H1 & H2 & H3 & H4).
  unfold stage_begin, done_at. cbn [take stage_times foldr].
  change simulate_baggage_processing with
    ([InitStatus; Broadcast] ++ stage_body 0 ++ stage_body 1 ++ stage_body 2
       ++ stage_body 3 ++ final_block).
  cbn [app stage_body]. unfold final_block.
  repeat case_decide; repeat until_step; reflexivity.
Qed.

Lemma stage_begin_4 t0 : stage_begin d t0 4 = done_at d t0.
Proof. unfold stage_begin, done_at. simpl. lia. Qed.

Lemma stage_begin_S t0 (k : nat) :
  (k < 4)%nat → stage_begin d t0 k + 20 <= stage_begin d t0 (S k).
Proof.
  destruct Hd as (H1 & H2 & H3 & H4). intros Hk. unfold stage_begin.
  do 4 (destruct k as [|k]; [simpl; lia|]). lia.
Qed.

Lemma consistent_stage_status (k : nat) :
  (k < 4)%nat → consistent_record tid (stage_status d tid (Z.of_nat k)).
Proof.
  intros Hk. do 4 (destruct k as [|k]; [repeat split; done|]). lia.
Qed.

Lemma consistent_completed_status : consistent_record tid (completed_status d tid).
Proof. repeat split; done. Qed.

Lemma consistent_initial_status : consistent_record tid (initial_status d tid).
Proof. repeat split; done. Qed.

End Timeline.

(** X13.  While stage [k] (0 to 3) is being processed, from the time the
    runner enters it to the time its sleep returns, a status query returns
    the record of that stage: stage index [k], the name of stage [k], the
    progress [k / 4 * 100], status Processing, no completion time, whatever
    the other coroutines do in between. *)
Theorem X13_status_during_stage d tid t0 T (k : nat) w w' :
  valid_draws d →
  (k < 4)%nat →
  stage_begin d t0 k <= T < stage_begin d t0 (S k) →
  run_clock d T tid simulate_baggage_processing t0 w w' →
  get_status tid w' = (inr (stage_status d tid (Z.of_nat k)), w').
Proof.
  intros Hd Hk HT Hrun. apply run_clock_entry in Hrun.
  rewrite (until_timeline d tid Hd) in Hrun.
  pose proof (stage_begin_S d Hd t0 0 ltac:(lia)) as S0.
  pose proof (stage_begin_S d Hd t0 1 ltac:(lia)) as S1.
  pose proof (stage_begin_S d Hd t0 2 ltac:(lia)) as S2.
  pose proof (stage_begin_S d Hd t0 3 ltac:(lia)) as S3.
  assert (stage_begin d t0 0 = t0) as Sb by (unfold stage_begin; simpl; lia).
  apply get_status_found.
  do 4 (destruct k as [|k];
        [repeat case_decide; first [lia|simplify_eq; by symmetry]|]).
  lia.
Qed.

Lemma X13_status_during_stage_witness :
  let w' := (run_until sample_draws 50 "T1" simulate_baggage_processing 0 empty_world).2 in
  get_status "T1" w' = (inr (stage_status sample_draws "T1" 2), w').
Proof.
  apply (X13_status_during_stage sample_draws "T1" 0 50 2 empty_world).
  - vm_compute; intuition discriminate.
  - lia.
  - vm_compute; intuition discriminate.
  - apply run_until_clock. vm_compute. reflexivity.
Defined.

(** X15.  In any run of the runner, interleaved as one likes, the records
    handed to the broadcast are, in order, the initial status, the records of
    the stages 0 to 3 and the completed status (a run looked at before its
    end has handed over the first of them).  Each is consistent: the stage
    name is the one of the stage index, the status is Completed with a
    completion time exactly on the terminal stage, the progress is within 0
    and 100. *)
Theorem X15_broadcast_records d tid w tr p' w' :
  run_trace d tid simulate_baggage_processing w tr p' w' →
  broadcasts tid tr `prefix_of` runner_frames d tid ∧
  (p' = [] → broadcasts tid tr = runner_frames d tid) ∧
  Forall (consistent_record tid) (broadcasts tid tr).
Proof.
  intros Hrun.
  assert (∀ o, omap broadcast_of (entry_steps d tid simulate_baggage_processing o)
               = runner_frames d tid) as Hfr by reflexivity.
  assert (broadcasts tid tr `prefix_of` runner_frames d tid) as Hp.
  { rewrite <- (Hfr (entry tid w)). apply omap_prefix. by eapply run_trace_prefix. }
  split_and!; [done| |].
  - intros ->. apply run_trace_own in Hrun. simpl in Hrun. rewrite app_nil_r in Hrun.
    unfold broadcasts. by rewrite Hrun.
  - destruct Hp as [rest Hrest].
    assert (Forall (consistent_record tid) (runner_frames d tid)) as Hall.
    { unfold runner_frames. simpl.
      apply Forall_cons_2; [apply consistent_initial_status|].
      apply Forall_cons_2; [apply (consistent_stage_status d tid 0); lia|].
      apply Forall_cons_2; [apply (consistent_stage_status d tid 1); lia|].
      apply Forall_cons_2; [apply (consistent_stage_status d tid 2); lia|].
      apply Forall_cons_2; [apply (consistent_stage_status d tid 3); lia|].
      apply Forall_cons_2; [apply consistent_completed_status|].
      apply Forall_nil_2. }
    rewrite Hrest in Hall. by apply Forall_app in Hall as [? _].
Qed.

Lemma X15_broadcast_records_witness :
  let tr := seq_trace sample_draws "T1" simulate_baggage_processing (sample_world [7%nat] []) in
  broadcasts "T1" tr `prefix_of` runner_frames sample_draws "T1" ∧
  ([] = @nil Stmt → broadcasts "T1" tr = runner_frames sample_draws "T1") ∧
  Forall (consistent_record "T1") (broadcasts "T1" tr).
Proof.
  apply (X15_broadcast_records sample_draws "T1" (sample_world [7%nat] []) _ []
           (run sample_draws "T1" simulate_baggage_processing (sample_world [7%nat] [])).2).
  apply seq_trace_run. vm_compute. reflexivity.
Defined.



(** X17.  With the delays the runner draws, a task completes between 90 and
    130 seconds after its start.  A status query from the start on and less
    than 90 seconds after it finds the task Processing; one from 130 seconds
    on and less than 390 seconds after the start finds it completed; one from
    430 seconds on gets the 404.  Before the start the record of the id is
    what it was, so a query for a fresh id gets the 404. *)
Theorem X17_completion_window d tid t0 T w w' :
  valid_draws d →
  run_clock d T tid simulate_baggage_processing t0 w w' →
  t0 + 90 <= done_at d t0 <= t0 + 130 ∧
  (T < t0 → entry tid w' = entry tid w) ∧
  (t0 <= T < t0 + 90 →
   ∃ r, get_status tid w' = (inr r, w') ∧ status r = "Processing"%string) ∧
  (t0 + 130 <= T < t0 + 390 →
   get_status tid w' = (inr (completed_status d tid), w')) ∧
  (t0 + 430 <= T →
   get_status tid w' = (inl (HTTPException 404 "Task not found"), w')).
Proof.
  intros Hd Hrun. apply run_clock_entry in Hrun.
  rewrite (until_timeline d tid Hd) in Hrun.
  pose proof (stage_begin_S d Hd t0 0 ltac:(lia)) as S0.
  pose proof (stage_begin_S d Hd t0 1 ltac:(lia)) as S1.
  pose proof (stage_begin_S d Hd t0 2 ltac:(lia)) as S2.
  pose proof (stage_begin_S d Hd t0 3 ltac:(lia)) as S3.
  pose proof (stage_begin_4 d t0) as S4.
  assert (t0 + 90 <= done_at d t0 <= t0 + 130) as Hb.
  { destruct Hd as (H1 & H2 & H3 & H4). unfold done_at. lia. }
  assert (stage_begin d t0 0 = t0) as Sb by (unfold stage_begin; simpl; lia).
  split; [done|]. split_and!; intros HT.
  - rewrite decide_True in Hrun by done. congruence.
  - repeat case_decide; simplify_eq; try lia;
      (eexists; split; [by apply get_status_found|done]).
  - repeat case_decide; simplify_eq; try lia. by apply get_status_found.
  - repeat case_decide; simplify_eq; try lia. by apply get_status_missing.
Qed.

Lemma X17_completion_window_witness :
  let w' := (run_until sample_draws 200 "T1" simulate_baggage_processing 0 empty_world).2 in
  0 + 90 <= done_at sample_draws 0 <= 0 + 130 ∧
  get_status "T1" w' = (inr (completed_status sample_draws "T1"), w').
Proof.
  destruct (X17_completion_window sample_draws "T1" 0 200 empty_world
              (run_until sample_draws 200 "T1" simulate_baggage_processing 0 empty_world).2)
    as (Hb & _ & _ & Hc & _).
  - vm_compute; intuition discriminate.
  - apply run_until_clock. vm_compute. reflexivity.
  - split; [done|]. apply Hc. lia.
Defined.

(** ** What the subscribers receive *)

Section RunnerDelivery.

Variable d : Draws.
Variable tid : string.
Variable conns : list WebSocket.
Implicit Types (w : World) (s : Stmt) (p : list Stmt).

Local Abbreviation all_open := (all_open tid conns).

Lemma exec_stmt_open s w o1 :
  all_open w →
  entry_stmt d tid s (entry tid w) = inr o1 →
  ∃ w1, exec_stmt d tid s w = (inr tt, w1) ∧ entry tid w1 = o1 ∧ all_open w1 ∧
        delivered w1
        = delivered w ++ match broadcast_of (s, (entry tid w, o1)) with
                         | Some message => frames_to conns message
                         | None => []
                         end.
Proof.
  intros [Hl Hopen].
  assert (∀ f o, entry_update f (entry tid w) = inr o →
            ∃ w1, update_task tid f w = (inr tt, w1) ∧ entry tid w1 = o ∧ all_open w1 ∧
                  delivered w1 = delivered w ++ []) as Hup.
  { intros f o. rewrite update_task_spec. destruct (entry tid w) as [r|]; [|done].
    intros [= <-]. eexists. split; [done|]. rewrite app_nil_r. split_and!; [|done|done].
    unfold entry. simpl. by rewrite lookup_insert_eq. }
  destruct s as [| |k|k|k| | | |k| |]; cbn [entry_stmt exec_stmt broadcast_of].
  - intros [= <-]. eexists. split; [done|]. rewrite app_nil_r. split_and!; [|done|done].
    unfold entry. simpl. by rewrite lookup_insert_eq.
  - unfold bind, gets, from_option. fold (entry tid w).
    destruct (entry tid w) as [r|] eqn:Hr; [|done]. intros [= <-]. unfold ret.
    rewrite (broadcast_all_open r tid w conns Hl Hopen).
    eexists. split; [done|]. by split_and!.
  - apply Hup.
  - unfold bind at 1.
    destruct (py_getitem PROCESSING_STAGES k) as [name|]; simpl; [apply Hup|done].
  - unfold bind at 1.
    destruct (stage_progress k) as [q|]; simpl; [apply Hup|done].
  - apply Hup.
  - apply Hup.
  - apply Hup.
  - unfold bind.
    destruct (py_getitem (stage_times d) k); simpl; [|done].
    intros [= <-]. exists w. rewrite app_nil_r. by split_and!.
  - intros [= <-]. exists w. rewrite app_nil_r. by split_and!.
  - intros [= <-]. unfold bind, gets. fold (entry tid w).
    destruct (entry tid w) as [r|] eqn:Hr.
    + eexists. split; [done|]. rewrite app_nil_r. split_and!; [|done|done].
      unfold entry. simpl. by rewrite lookup_delete_eq.
    + exists w. rewrite app_nil_r. by split_and!.
Qed.

Lemma run_open p w o' :
  all_open w →
  entry_run d tid p (entry tid w) = inr o' →
  ∃ w', run d tid p w = (inr tt, w') ∧ entry tid w' = o' ∧ all_open w' ∧
        delivered w'
        = delivered w ++ (omap broadcast_of (entry_steps d tid p (entry tid w))
                            ≫= frames_to conns).
Proof.
  revert w. induction p as [|s p IH]; intros w Hopen; simpl.
  - intros [= <-]. exists w. rewrite app_nil_r. by split_and!.
  - destruct (entry_stmt d tid s (entry tid w)) as [e|o1] eqn:Hs; [done|].
    intros Hrun.
    destruct (exec_stmt_open s w o1 Hopen Hs) as (w1 & He & <- & Hopen1 & Hd1).
    destruct (IH w1 Hopen1 Hrun) as (w' & Hw' & Ho' & Hopen' & Hd').
    exists w'. unfold bind. rewrite He. split_and!; [done..|].
    rewrite Hd', Hd1, <- app_assoc. f_equal.
    remember (broadcast_of (s, (entry tid w, entry tid w1))) as b eqn:Hb.
    cbn [omap list_omap]. rewrite <- Hb. by destruct b.
Qed.

End RunnerDelivery.

Section Received.

Implicit Types (c : WebSocket) (conns : list WebSocket) (m : TaskRecord).

Lemma received_app c (l1 l2 : list (WebSocket * TaskRecord)) :
  received c (l1 ++ l2) = received c l1 ++ received c l2.
Proof. apply omap_app. Qed.

Lemma received_frames_out c conns m :
  c ∉ conns → received c (frames_to conns m) = [].
Proof.
  induction conns as [|y l IH]; [done|]. intros Hni.
  apply not_elem_of_cons in Hni as [Hne Hni].
  unfold received, frames_to in *. simpl. rewrite decide_False by done. by apply IH.
Qed.

Lemma received_frames_in c conns m :
  NoDup conns → c ∈ conns → received c (frames_to conns m) = [m].
Proof.
  induction conns as [|y l IH]; intros Hnd Hin.
  - by apply not_elem_of_nil in Hin.
  - apply list.NoDup_cons in Hnd as [Hny Hnd].
    unfold received, frames_to in *. simpl. case_decide as Hy.
    + subst y. f_equal. by apply (received_frames_out c l m).
    + apply elem_of_cons in Hin as [->|Hin]; [done|]. by apply IH.
Qed.

Lemma received_bind_in c conns (ms : list TaskRecord) :
  NoDup conns → c ∈ conns → received c (ms ≫= frames_to conns) = ms.
Proof.
  intros Hnd Hin. induction ms as [|m ms IH]; [done|].
  rewrite bind_cons, received_app, IH. by rewrite received_frames_in.
Qed.

Lemma received_bind_out c conns (ms : list TaskRecord) :
  c ∉ conns → received c (ms ≫= frames_to conns) = [].
Proof.
  intros Hni. induction ms as [|m ms IH]; [done|].
  rewrite bind_cons, received_app, IH. by rewrite received_frames_out.
Qed.

End Received.

(** X14.  When the subscribers of a task are distinct and none of their
    sockets is closed, a run of the runner left to itself sends each of them
    the six records in order (the initial status, the stages 0 to 3, the
    completed status), sends nothing to anyone else, and leaves the list of
    subscribers as it was. *)
Theorem X14_full_run_delivery d tid conns w :
  all_open tid conns w →
  NoDup conns →
  ∃ w', run d tid simulate_baggage_processing w = (inr tt, w') ∧
        delivered w' = delivered w ++ (runner_frames d tid ≫= frames_to conns) ∧
        (∀ c, c ∈ conns →
           received c (delivered w') = received c (delivered w) ++ runner_frames d tid) ∧
        (∀ c, c ∉ conns → received c (delivered w') = received c (delivered w)) ∧
        active_connections w' !! tid = Some conns.
Proof.
  intros Hopen Hnd.
  destruct (run_open d tid conns simulate_baggage_processing w None Hopen
              (simulate_entry_run d tid _)) as (w' & Hrun & _ & [Hl _] & Hd).
  change (omap broadcast_of (entry_steps d tid simulate_baggage_processing (entry tid w)))
    with (runner_frames d tid) in Hd.
  exists w'. split_and!; [done..| | |done].
  - intros c Hin. by rewrite Hd, received_app, received_bind_in.
  - intros c Hni. by rewrite Hd, received_app, received_bind_out, app_nil_r.
Qed.

Lemma X14_full_run_delivery_witness :
  ∃ w', run sample_draws "T1" simulate_baggage_processing (sample_world [1; 2]%nat [])
        = (inr tt, w') ∧
        received 2%nat (delivered w') = runner_frames sample_draws "T1".
Proof.
  destruct (X14_full_run_delivery sample_draws "T1" [1; 2]%nat (sample_world [1; 2]%nat []))
    as (w' & Hrun & _ & Hin & _).
  - split; [reflexivity|]. intros c _. vm_compute. set_solver.
  - apply (bool_decide_unpack _). vm_compute. done.
  - exists w'. split; [done|]. rewrite (Hin 2%nat); [done|].
    by apply (bool_decide_unpack _).
Defined.

Section LateSubscriber.

Variable d : Draws.
Variable tid : string.

Lemma connect_open_snapshot ws w r :
  entry tid w = Some r → ws ∉ closed w →
  connect ws tid w = (inr tt, push_delivered ws r (registered ws tid w)).
Proof.
  intros Hr Hopen. rewrite connect_spec, decide_False, Hr by done.
  unfold send_personal_message, send_text. by rewrite decide_False.
Qed.

(** The cut of the coroutine at stage [k], seen from the record. *)
Lemma stage_cut (k : nat) o :
  (k < 4)%nat →
  simulate_baggage_processing = run_to_stage k ++ run_from_stage k ∧
  entry_run d tid (run_to_stage k) o = inr (Some (stage_status d tid (Z.of_nat k))) ∧
  omap broadcast_of (entry_steps d tid (run_to_stage k) o)
    = take (S (S k)) (runner_frames d tid) ∧
  entry_run d tid (run_from_stage k) (Some (stage_status d tid (Z.of_nat k))) = inr None ∧
  omap broadcast_of
    (entry_steps d tid (run_from_stage k) (Some (stage_status d tid (Z.of_nat k))))
    = drop (S (S k)) (runner_frames d tid) ∧
  drop (S k) (runner_frames d tid)
    = stage_status d tid (Z.of_nat k) :: drop (S (S k)) (runner_frames d tid).
Proof.
  intros Hk. do 4 (destruct k as [|k]; [by split_and!|]). lia.
Qed.

End LateSubscriber.

(** X18.  A subscriber that attaches while the runner sleeps in stage [k]
    (0 to 3), on an open socket, is sent the record of stage [k] at once and
    then every later record: in all, what the subscribers attached from the
    start receive from stage [k] on.  Those receive the six records as if
    nobody had joined. *)
Theorem X18_late_subscriber d tid conns ws (k : nat) w :
  (k < 4)%nat →
  all_open tid conns w → NoDup conns → ws ∉ conns → ws ∉ closed w →
  simulate_baggage_processing = run_to_stage k ++ run_from_stage k ∧
  ∃ w1 w2 w3,
    run d tid (run_to_stage k) w = (inr tt, w1) ∧
    connect ws tid w1 = (inr tt, w2) ∧
    run d tid (run_from_stage k) w2 = (inr tt, w3) ∧
    received ws (delivered w3)
      = received ws (delivered w) ++ drop (S k) (runner_frames d tid) ∧
    (∀ c, c ∈ conns →
       received c (delivered w3) = received c (delivered w) ++ runner_frames d tid).
Proof.
  intros Hk Hopen Hnd Hni Hws.
  destruct (stage_cut d tid k (entry tid w) Hk) as (Hcut & Hto & Hfto & Hfrom & Hffrom & Hdrop).
  split; [done|].
  remember (runner_frames d tid) as frames eqn:Hframes. clear Hframes.
  destruct (run_open d tid conns (run_to_stage k) w _ Hopen Hto)
    as (w1 & Hrun1 & He1 & [Hl1 Hopen1] & Hd1).
  rewrite Hfto in Hd1.
  assert (closed w1 = closed w) as Hc1.
  { pose proof (run_closed d tid (run_to_stage k) w) as Hc. by rewrite Hrun1 in Hc. }
  assert (ws ∉ closed w1) as Hws1 by (by rewrite Hc1).
  pose proof (connect_open_snapshot tid ws w1 _ He1 Hws1) as Hconn.
  set (w2 := push_delivered ws (stage_status d tid (Z.of_nat k)) (registered ws tid w1)) in *.
  assert (all_open tid (conns ++ [ws]) w2) as Hopen2.
  { split.
    - subst w2. unfold registered. simpl. by rewrite Hl1, lookup_insert_eq.
    - intros c Hc. subst w2. simpl.
      apply elem_of_app in Hc as [Hc|Hc]; [by apply Hopen1|].
      apply list_elem_of_singleton in Hc. by subst c. }
  assert (entry tid w2 = Some (stage_status d tid (Z.of_nat k))) as He2 by done.
  destruct (run_open d tid (conns ++ [ws]) (run_from_stage k) w2 None Hopen2)
    as (w3 & Hrun3 & _ & _ & Hd3).
  { by rewrite He2. }
  rewrite He2, Hffrom in Hd3.
  assert (NoDup (conns ++ [ws])) as Hnd2.
  { apply list.NoDup_app. split_and!; [done| |apply NoDup_singleton].
    intros x Hx Hx'. apply list_elem_of_singleton in Hx'. by subst x. }
  exists w1, w2, w3. split_and!; [done..| |].
  - rewrite Hd3. subst w2. simpl. rewrite Hd1.
    rewrite !received_app, received_bind_out by done.
    rewrite received_bind_in by (done || (apply elem_of_app; right; apply list_elem_of_singleton; done)).
    unfold received at 2. simpl. rewrite decide_True by done. simpl.
    by rewrite Hdrop, app_nil_r, <- app_assoc.
  - intros c Hc. rewrite Hd3. subst w2. simpl. rewrite Hd1.
    rewrite !received_app, received_bind_in by done.
    rewrite received_bind_in by (done || (apply elem_of_app; by left)).
    assert (ws ≠ c) as Hne by (intros ->; done).
    unfold received at 2. simpl. rewrite decide_False by done. simpl.
    by rewrite app_nil_r, <- app_assoc, take_drop.
Qed.

Lemma X18_late_subscriber_witness :
  ∃ w1 w2 w3,
    run sample_draws "T1" (run_to_stage 2) (sample_world [1%nat] []) = (inr tt, w1) ∧
    connect 2%nat "T1" w1 = (inr tt, w2) ∧
    run sample_draws "T1" (run_from_stage 2) w2 = (inr tt, w3) ∧
    received 2%nat (delivered w3)
      = [stage_status sample_draws "T1" 2; stage_status sample_draws "T1" 3;
         completed_status sample_draws "T1"].
Proof.
  destruct (X18_late_subscriber sample_draws "T1" [1%nat] 2%nat 2 (sample_world [1%nat] []))
    as (_ & w1 & w2 & w3 & H1 & H2 & H3 & H4 & _).
  - lia.
  - split; [reflexivity|]. intros c _. vm_compute. set_solver.
  - apply (bool_decide_unpack _). vm_compute. done.
  - by apply (bool_decide_unpack _).
  - vm_compute. set_solver.
  - exists w1, w2, w3. split_and!; [done..|]. by rewrite H4.
Defined.

(** ** A record that has gone missing *)

(** X19.  When the record of the task is no longer in the registry as the
    runner wakes from the sleep of stage [k] (0 to 3), its next statement, a
    write to the record, raises KeyError: the rest of the coroutine is not
    run, nothing is broadcast, and the world is left as it was. *)
Theorem X19_missing_record_raises d tid (k : nat) w :
  (k < 4)%nat →
  entry tid w = None →
  run d tid (run_from_stage k) w = (inl KeyError, w).
Proof.
  intros Hk Hnone.
  assert (∀ j p, run d tid (SetStage j :: p) w = (inl KeyError, w)) as Hraise.
  { intros j p. simpl. unfold bind. by rewrite update_task_spec, Hnone. }
  do 4 (destruct k as [|k]; [apply Hraise|]). lia.
Qed.

Lemma X19_missing_record_raises_witness :
  run sample_draws "T1" (run_from_stage 1) (sample_world [7%nat] [])
  = (inl KeyError, sample_world [7%nat] []).
Proof.
  apply (X19_missing_record_raises sample_draws "T1" 1 (sample_world [7%nat] [])).
  - lia.
  - reflexivity.
Defined.
